(** * RiskFormBuild: form evaluation and risk scoring engine

    A shallow embedding of the TypeScript utilities
    [utils/riskCalculation.ts], [utils/validation.ts] and [utils/storage.ts]
    together with the schema types of [types/form.ts].

    Modelling conventions.
    - A JavaScript [number] is a [Num]: either [NaN] or an exact rational.
      Rounding error of IEEE doubles, the two infinities and the negative
      zero are outside the model; no function below divides without first
      testing the divisor.  Where a general statement is about a computed
      number, it names the operations of the code in the order of the code,
      or is an inequality that correctly rounded operations preserve, or
      is restricted to inputs on which the sums of the code are exact.
    - A JavaScript value of type [any] is a [Value].  Arrays and plain
      objects are trees; object identity is not represented, so [===] between
      two arrays, objects or files answers [false] (in the code one operand
      always comes from the immutable config and the other from the answers,
      hence they are never the same reference).
    - Objects used as dictionaries ([FormValues], the error map, the section
      breakdown, [localStorage]) are [gmap string _]: the map holds the own
      properties.  A plain object also answers for the names it inherits
      from [Object.prototype], and an assignment to [__proto__] sets its
      prototype; [own_key] and [assignable_key] mark the keys for which the
      map and the object agree. *)

From Stdlib Require Import Ascii String DecimalString QArith Qround Lqa.
From stdpp Require Import gmap strings list fin_maps.

Local Open Scope string_scope.

(* ================================================================== *)
(** ** JavaScript values *)
(* ================================================================== *)

(** A JavaScript number: [NaN], or a finite number given by its exact
    value. *)
Inductive Num :=
| NaN
| Fin (q : Q).

(** The browser's [File] object, as far as the code reads it. *)
Record FileObj := {
  file_name : string;
  file_size : Num;
  file_type : string;
}.

#[warnings="-register-all"]
Inductive Value :=
| VUndef
| VNull
| VBool (b : bool)
| VNum (n : Num)
| VStr (s : string)
| VFile (f : FileObj)
| VArr (items : list Value)
| VObj (fields : list (string * Value)).

Definition num (z : Z) : Value := VNum (Fin (inject_Z z)).

(** [q != 0] on rationals, as a boolean. *)
Definition Qnonzero (q : Q) : bool := negb (Qeq_bool q 0).

(** ToBoolean: [undefined], [null], [false], [0], [NaN] and [''] are falsy. *)
Definition truthy (v : Value) : bool :=
  match v with
  | VUndef | VNull => false
  | VBool b => b
  | VNum NaN => false
  | VNum (Fin q) => Qnonzero q
  | VStr s => negb (String.eqb s "")
  | VFile _ | VArr _ | VObj _ => true
  end.

Definition isArray (v : Value) : bool :=
  match v with VArr _ => true | _ => false end.

(** [a === b]. [NaN] differs from itself; arrays, objects and files are
    compared by reference and the operands are never the same reference. *)
Definition strict_eq (a b : Value) : bool :=
  match a, b with
  | VUndef, VUndef => true
  | VNull, VNull => true
  | VBool x, VBool y => Bool.eqb x y
  | VNum (Fin x), VNum (Fin y) => Qeq_bool x y
  | VStr x, VStr y => String.eqb x y
  | _, _ => false
  end.

(** SameValueZero, the comparison of [Array.prototype.includes]. *)
Definition same_value_zero (a b : Value) : bool :=
  match a, b with
  | VNum NaN, VNum NaN => true
  | _, _ => strict_eq a b
  end.

(** [arr.includes(x)] *)
Definition array_includes (arr : list Value) (x : Value) : bool :=
  existsb (fun e => same_value_zero e x) arr.

(** [o || d] for an optional numeric property: the default is taken when the
    property is absent, [NaN] or [0]. *)
Definition num_or (o : option Num) (d : Q) : Q :=
  match o with
  | Some (Fin q) => if Qnonzero q then q else d
  | _ => d
  end.

(** JavaScript [<] and [>] on numbers: any comparison with [NaN] is false. *)
Definition num_lt (a b : Num) : bool :=
  match a, b with
  | Fin x, Fin y => negb (Qle_bool y x)
  | _, _ => false
  end.

Definition num_gt (a b : Num) : bool := num_lt b a.

(** [Math.round]: the nearest integer, halves rounded towards +infinity. *)
Definition Math_round (q : Q) : Q := inject_Z (Qfloor (q + (1 # 2))).

(* ================================================================== *)
(** ** Schema model ([types/form.ts]) *)
(* ================================================================== *)

(** [ConditionalLogic]; [operator] is kept as the string the config holds,
    since the code switches on it and has a [default] branch. *)
Record ConditionalLogic := {
  cond_questionId : string;
  cond_answer : Value;
  cond_operator : option string;
}.

(** Result of a custom [validate] callback: [boolean | string]. *)
Inductive ValidateResult :=
| RBool (b : bool)
| RString (s : string).

Inductive RuleType := RCustom | RPattern | RMin | RMax | RRequired.

Record ValidationRule := {
  rule_type : RuleType;
  rule_message : string;
  rule_validate : option (Value -> ValidateResult);
}.

(** [SelectOption] / [CheckboxOption]; the [options] array may also hold
    bare strings. *)
Record SelectOption := {
  opt_label : string;
  opt_value : string;
  opt_riskValue : option Num;
}.

Inductive OptionItem :=
| OptString (s : string)
| OptObject (o : SelectOption).

(** The discriminated union [Question], by its [type] tag. *)
Inductive QuestionKind :=
| KText (minLength maxLength : option Num) (pattern : option string)
| KNumber (min max : option Num)
| KSelect (options : list OptionItem)
| KCheckbox (options : list OptionItem)
| KFile (accept : option string) (maxSize : option Num)
| KDate (minDate maxDate : option string).

Record Question := {
  q_id : string;
  q_label : string;
  q_required : bool;
  q_riskWeight : option Num;
  q_conditional : option ConditionalLogic;
  q_validation : option (list ValidationRule);
  q_kind : QuestionKind;
}.

Record FormSection := {
  sec_id : string;
  sec_questions : list Question;
}.

Record FormConfig := {
  cfg_id : string;
  cfg_sections : list FormSection;
  cfg_maxRiskScore : option Num;
}.

Abbreviation FormValues := (gmap string Value).

(** The properties that every plain object inherits from
    [Object.prototype]. *)
Definition Object_prototype_keys : list string :=
  [ "constructor"; "hasOwnProperty"; "isPrototypeOf"; "propertyIsEnumerable";
    "toLocaleString"; "toString"; "valueOf"; "__proto__";
    "__defineGetter__"; "__defineSetter__"; "__lookupGetter__";
    "__lookupSetter__" ].

(** A key that a plain object does not inherit: [obj[key]] is then the own
    property, or [undefined] when there is none. *)
Definition own_key (key : string) : bool :=
  negb (existsb (String.eqb key) Object_prototype_keys).

(** A key for which [obj[key] = v] adds or replaces an own property: any
    key but [__proto__], whose setter changes the prototype instead. *)
Definition assignable_key (key : string) : bool :=
  negb (String.eqb key "__proto__").

(** [formValues[key]]: the own property, [undefined] when there is none.
    For a key that is not an [own_key] and is absent, the object of the code
    answers with the inherited built-in instead. *)
Definition get (values : FormValues) (key : string) : Value :=
  default VUndef (values !! key).

(** The key that [isFieldVisible] looks up for a question: the
    [questionId] of its conditional, when it has one. *)
Definition conditional_own_key (question : Question) : bool :=
  match q_conditional question with
  | Some c => own_key (cond_questionId c)
  | None => true
  end.

(** The keys that [validateForm] looks up for a question: its id and the
    [questionId] of its conditional. *)
Definition reads_own_keys (question : Question) : bool :=
  own_key (q_id question) && conditional_own_key question.

Inductive RiskLevel := Low | Medium | High | Critical.

Record SectionBreakdown := {
  bd_score : Q;
  bd_maxScore : Q;
  bd_percentage : Q;
}.

Record RiskScore := {
  totalScore : Q;
  maxScore : Q;
  percentage : Q;
  level : RiskLevel;
  breakdown : gmap string SectionBreakdown;
}.

(* ================================================================== *)
(** ** Risk scoring ([utils/riskCalculation.ts]) *)
(* ================================================================== *)

(** [question.options], when the question is a select or a checkbox. *)
Definition options_of (k : QuestionKind) : option (list OptionItem) :=
  match k with
  | KSelect os | KCheckbox os => Some os
  | _ => None
  end.

Definition is_checkbox (k : QuestionKind) : bool :=
  match k with KCheckbox _ => true | _ => false end.

(** The predicate handed to [options.find]:
    [typeof opt === 'string' ? opt === val : opt.value === val]. *)
Definition option_matches (val : Value) (opt : OptionItem) : bool :=
  match opt with
  | OptString s => strict_eq (VStr s) val
  | OptObject o => strict_eq (VStr (opt_value o)) val
  end.

(** [(option as any)?.riskValue] *)
Definition riskValue_of (found : option OptionItem) : option Num :=
  match found with
  | Some (OptObject o) => opt_riskValue o
  | _ => None
  end.

(** [options.find(...)?.riskValue || weight] *)
Definition option_risk (options : list OptionItem) (weight : Q)
    (val : Value) : Q :=
  num_or (riskValue_of (List.find (option_matches val) options)) weight.

(** [riskValues.reduce((a, b) => a + b, 0)] *)
Definition sum_reduce (l : list Q) : Q := fold_left Qplus l 0%Q.

Definition calculateQuestionRiskScore (question : Question)
    (answer : Value) : Q :=
  if negb (truthy answer) || strict_eq answer (VStr "")
     || match answer with VArr [] => true | _ => false end
  then 0%Q
  else
    let weight := num_or (q_riskWeight question) 0 in
    match options_of (q_kind question) with
    | Some options =>
        match is_checkbox (q_kind question), answer with
        | true, VArr vals =>
            let riskValues := map (option_risk options weight) vals in
            if (0 <? length riskValues)%nat
            then (sum_reduce riskValues
                  / inject_Z (Z.of_nat (length riskValues)))%Q
            else weight
        | _, _ => option_risk options weight answer
        end
    | None => weight
    end.

(** [maxScore > 0 ? (score / maxScore) * 100 : 0] *)
Definition percent_of (score max : Q) : Q :=
  if negb (Qle_bool max 0) then (score / max * 100)%Q else 0%Q.

(** Accumulators of the inner [forEach]: section and overall sums. *)
Record Acc := {
  acc_sectionScore : Q;
  acc_sectionMax : Q;
  acc_totalScore : Q;
  acc_maxScore : Q;
}.

Definition question_step (values : FormValues) (a : Acc) (question : Question)
    : Acc :=
  let maxScoreForQuestion := num_or (q_riskWeight question) 0 in
  let answer := get values (q_id question) in
  let questionScore := calculateQuestionRiskScore question answer in
  {| acc_sectionScore := (acc_sectionScore a + questionScore)%Q;
     acc_sectionMax := (acc_sectionMax a + maxScoreForQuestion)%Q;
     acc_totalScore := (acc_totalScore a + questionScore)%Q;
     acc_maxScore := (acc_maxScore a + maxScoreForQuestion)%Q |}.

(** State of the outer [forEach]: the breakdown object and the two totals.
    [breakdown[section.id] = ...] is an insertion into the map for every id
    that is an [assignable_key]. *)
Record Totals := {
  tot_breakdown : gmap string SectionBreakdown;
  tot_score : Q;
  tot_max : Q;
}.

Definition section_step (values : FormValues) (t : Totals) (s : FormSection)
    : Totals :=
  let a := fold_left (question_step values) (sec_questions s)
             {| acc_sectionScore := 0; acc_sectionMax := 0;
                acc_totalScore := tot_score t; acc_maxScore := tot_max t |} in
  {| tot_breakdown :=
       <[ sec_id s :=
            {| bd_score := acc_sectionScore a;
               bd_maxScore := acc_sectionMax a;
               bd_percentage :=
                 percent_of (acc_sectionScore a) (acc_sectionMax a) |} ]>
         (tot_breakdown t);
     tot_score := acc_totalScore a;
     tot_max := acc_maxScore a |}.

Definition level_of (normalizedScore : Q) : RiskLevel :=
  if Qle_bool 75 normalizedScore then Critical
  else if Qle_bool 50 normalizedScore then High
  else if Qle_bool 25 normalizedScore then Medium
  else Low.

Definition calculateRiskScore (formConfig : FormConfig)
    (formValues : FormValues) : RiskScore :=
  let t := fold_left (section_step formValues) (cfg_sections formConfig)
             {| tot_breakdown := ∅; tot_score := 0; tot_max := 0 |} in
  let maxScoreConfig := num_or (cfg_maxRiskScore formConfig) 100 in
  let percentage := percent_of (tot_score t) (tot_max t) in
  let normalizedScore := (percentage / 100 * maxScoreConfig)%Q in
  {| totalScore := Math_round normalizedScore;
     maxScore := maxScoreConfig;
     percentage := Math_round percentage;
     level := level_of normalizedScore;
     breakdown := tot_breakdown t |}.


(* ================================================================== *)
(** ** Exceptions and host functions *)
(* ================================================================== *)

(** Outcome of a call that may throw. *)
Inductive Completion (A : Type) :=
| Normal (a : A)
| Throw (error : string).
Arguments Normal {A} a.
Arguments Throw {A} error.

Definition bind {A B : Type} (m : Completion A) (k : A -> Completion B)
    : Completion B :=
  match m with
  | Normal a => k a
  | Throw e => Throw e
  end.

Notation "x <- m ;; k" := (bind m (fun x => k))
  (at level 100, m at next level, right associativity).

(** Built-ins of the JavaScript engine that the code calls and that have no
    closed arithmetic description here: numeric literals in strings, the
    printing of numbers, regular expressions and date parsing. *)
Record Host := {
  (** [Number(s)] for a string [s] *)
  parseNumber : string -> Num;
  (** [String(n)] for a number [n], also inside template literals *)
  showNumber : Num -> string;
  (** [new RegExp(pattern).test(s)]; [None] when the pattern is rejected
      with a SyntaxError *)
  regexTest : string -> string -> option bool;
  (** [new Date(v).getTime()] *)
  dateTime : Value -> Num;
}.

(* ------------------------------------------------------------------ *)
(** *** String primitives *)

(** [s.includes(sub)] *)
Fixpoint string_includes (s sub : string) : bool :=
  String.prefix sub s ||
  match s with
  | EmptyString => false
  | String _ rest => string_includes rest sub
  end.

(** [s.split(sep)] for a one-character separator; never the empty list. *)
Fixpoint split_on (sep : ascii) (s : string) : list string :=
  match s with
  | EmptyString => [EmptyString]
  | String c rest =>
      if Ascii.eqb c sep then EmptyString :: split_on sep rest
      else match split_on sep rest with
           | [] => [String c EmptyString]
           | w :: ws => String c w :: ws
           end
  end.

Definition is_white (c : ascii) : bool :=
  let n := nat_of_ascii c in
  (n =? 32)%nat || ((9 <=? n)%nat && (n <=? 13)%nat).

Fixpoint trim_start (s : string) : string :=
  match s with
  | String c rest => if is_white c then trim_start rest else s
  | EmptyString => EmptyString
  end.

(** [s.trim()], on the ASCII white space characters. *)
Definition trim (s : string) : string :=
  String.rev (trim_start (String.rev (trim_start s))).

Definition lower_ascii (c : ascii) : ascii :=
  let n := nat_of_ascii c in
  if (65 <=? n)%nat && (n <=? 90)%nat then ascii_of_nat (n + 32) else c.

(** [s.toLowerCase()], on ASCII letters. *)
Fixpoint toLowerCase (s : string) : string :=
  match s with
  | EmptyString => EmptyString
  | String c rest => String (lower_ascii c) (toLowerCase rest)
  end.

Definition str_truthy (s : string) : bool := negb (String.eqb s "").

(** Truthiness of an optional string property or of a [string | null]. *)
Definition opt_str_truthy (o : option string) : bool :=
  match o with Some s => str_truthy s | None => false end.

(** Truthiness of an optional numeric property. *)
Definition opt_num_truthy (o : option Num) : bool :=
  match o with Some (Fin q) => Qnonzero q | _ => false end.

(** Lookup of a property in an object literal. *)
Fixpoint obj_get (fields : list (string * Value)) (key : string) : Value :=
  match fields with
  | [] => VUndef
  | (k, v) :: rest => if String.eqb k key then v else obj_get rest key
  end.

(** [v.name]: property access; a TypeError on [undefined] and [null]. *)
Definition prop (v : Value) (name : string) : Completion Value :=
  match v with
  | VUndef | VNull => Throw "TypeError"
  | VStr s =>
      Normal (if String.eqb name "length"
              then num (Z.of_nat (String.length s)) else VUndef)
  | VArr items =>
      Normal (if String.eqb name "length"
              then num (Z.of_nat (length items)) else VUndef)
  | VFile f =>
      Normal (if String.eqb name "name" then VStr (file_name f)
              else if String.eqb name "size" then VNum (file_size f)
              else if String.eqb name "type" then VStr (file_type f)
              else VUndef)
  | VObj fields => Normal (obj_get fields name)
  | VBool _ | VNum _ => Normal VUndef
  end.

Section WithHost.

Variable host : Host.

(** [String(v)] *)
Fixpoint to_string (v : Value) : string :=
  match v with
  | VUndef => "undefined"
  | VNull => "null"
  | VBool true => "true"
  | VBool false => "false"
  | VNum n => showNumber host n
  | VStr s => s
  | VFile _ => "[object File]"
  | VArr items =>
      let elem x := match x with
                    | VUndef | VNull => ""
                    | _ => to_string x
                    end in
      (fix join (l : list Value) : string :=
         match l with
         | [] => ""
         | [x] => elem x
         | x :: rest => elem x ++ "," ++ join rest
         end) items
  | VObj _ => "[object Object]"
  end.

(** [Number(v)] *)
Definition to_number (v : Value) : Num :=
  match v with
  | VUndef => NaN
  | VNull => Fin 0
  | VBool true => Fin 1
  | VBool false => Fin 0
  | VNum n => n
  | VStr s => parseNumber host s
  | VFile _ | VArr _ | VObj _ => parseNumber host (to_string v)
  end.

Definition isNaN (n : Num) : bool :=
  match n with NaN => true | Fin _ => false end.

(* ================================================================== *)
(** ** Conditional visibility ([utils/validation.ts]) *)
(* ================================================================== *)

(** [value === undefined || value === null || value === ''] *)
Definition is_empty (v : Value) : bool :=
  match v with
  | VUndef | VNull => true
  | VStr s => String.eqb s ""
  | _ => false
  end.

(** [answer.some((a) => currentValue.includes(a))] *)
Definition some_included (answer currentValue : list Value) : bool :=
  existsb (fun a => array_includes currentValue a) answer.

(** The [switch (operator)] of [isFieldVisible]. *)
Definition visible_switch (operator : string) (answer currentValue : Value)
    : bool :=
  if String.eqb operator "equals" then
    match answer with
    | VArr ans =>
        match currentValue with
        | VArr cur => some_included ans cur
        | _ => array_includes ans currentValue
        end
    | _ => strict_eq currentValue answer
    end
  else if String.eqb operator "includes" then
    match currentValue with
    | VArr cur =>
        match answer with
        | VArr ans => some_included ans cur
        | _ => array_includes cur answer
        end
    | _ => string_includes (to_string currentValue) (to_string answer)
    end
  else if String.eqb operator "greaterThan" then
    num_gt (to_number currentValue) (to_number answer)
  else if String.eqb operator "lessThan" then
    num_lt (to_number currentValue) (to_number answer)
  else true.

Definition isFieldVisible (question : Question) (formValues : FormValues)
    : bool :=
  match q_conditional question with
  | None => true
  | Some c =>
      let operator := default "equals" (cond_operator c) in
      let currentValue := get formValues (cond_questionId c) in
      if is_empty currentValue then false
      else visible_switch operator (cond_answer c) currentValue
  end.

Definition getVisibleQuestions (questions : list Question)
    (formValues : FormValues) : list Question :=
  List.filter (fun question => isFieldVisible question formValues) questions.

Definition evaluateCondition (conditional : option ConditionalLogic)
    (currentValue : Value) : bool :=
  match conditional with
  | None => true
  | Some c =>
      let answer := cond_answer c in
      let operator := default "equals" (cond_operator c) in
      if String.eqb operator "equals" then
        match answer with
        | VArr ans =>
            match currentValue with
            | VArr cur => some_included ans cur
            | _ => array_includes ans currentValue
            end
        | _ => strict_eq currentValue answer
        end
      else if String.eqb operator "includes" then
        match currentValue with
        | VArr cur => array_includes cur answer
        | _ => string_includes (to_string currentValue) (to_string answer)
        end
      else if String.eqb operator "greaterThan" then
        num_gt (to_number currentValue) (to_number answer)
      else if String.eqb operator "lessThan" then
        num_lt (to_number currentValue) (to_number answer)
      else false
  end.

(* ================================================================== *)
(** ** Field validation ([utils/validation.ts]) *)
(* ================================================================== *)

(** [list.some(f)] for a callback that may throw: stops at the first [true]. *)
Fixpoint some_c {A : Type} (f : A -> Completion bool) (l : list A)
    : Completion bool :=
  match l with
  | [] => Normal false
  | x :: rest =>
      match f x with
      | Normal true => Normal true
      | Normal false => some_c f rest
      | Throw e => Throw e
      end
  end.

(** [file.name.split('.').pop()?.toLowerCase()], prefixed with a dot. *)
Definition file_extension (name : string) : string :=
  "." ++ toLowerCase (List.last (split_on "." name) "").

(** The callback of [acceptedTypes.some] in [validateFileUpload]. *)
Definition type_accepted (file : Value) (fileExtension type : string)
    : Completion bool :=
  if String.prefix "." type then
    Normal (String.eqb (toLowerCase fileExtension) (toLowerCase type))
  else
    ftype <- prop file "type";;
    match ftype with
    | VStr t => Normal (string_includes t type)
    | VArr items => Normal (array_includes items (VStr type))
    | _ => Throw "TypeError"
    end.

Definition validateFileUpload (file : Value) (accept : option string)
    (maxSize : option Num) : Completion (option string) :=
  typeError <-
    (if opt_str_truthy accept then
       let accept_ := default "" accept in
       let acceptedTypes := map trim (split_on "," accept_) in
       name <- prop file "name";;
       match name with
       | VStr nm =>
           let fileExtension := file_extension nm in
           isAccepted <- some_c (type_accepted file fileExtension) acceptedTypes;;
           Normal (if isAccepted then None
                   else Some ("File type not supported. Accepted types: "
                              ++ accept_))
       | _ => Throw "TypeError"
       end
     else Normal None);;
  match typeError with
  | Some e => Normal (Some e)
  | None =>
      if opt_num_truthy maxSize then
        let shown := showNumber host (default NaN maxSize) in
        let maxSizeBytes :=
          match maxSize with
          | Some (Fin m) => Fin (m * 1024 * 1024)
          | _ => NaN
          end in
        size <- prop file "size";;
        Normal (if num_gt (to_number size) maxSizeBytes
                then Some ("File size exceeds " ++ shown ++ "MB limit")
                else None)
      else Normal None
  end.

(** How the [switch (question.type)] of [validateField] ends: with a
    [return], or with a [break] that goes on to the custom rules. *)
Inductive Flow :=
| Return (result : option string)
| Break.

(** The [for (const file of value)] loop of the [file] case. *)
Fixpoint validate_files (files : list Value) (accept : option string)
    (maxSize : option Num) : Completion Flow :=
  match files with
  | [] => Normal Break
  | file :: rest =>
      fileError <- validateFileUpload file accept maxSize;;
      if opt_str_truthy fileError then Normal (Return fileError)
      else validate_files rest accept maxSize
  end.

Definition type_checks (question : Question) (value : Value)
    : Completion Flow :=
  match q_kind question with
  | KText minLength maxLength pattern =>
      len <- prop value "length";;
      if opt_num_truthy minLength
         && num_lt (to_number len) (default NaN minLength)
      then Normal (Return (Some ("Minimum length is "
             ++ showNumber host (default NaN minLength) ++ " characters")))
      else if opt_num_truthy maxLength
              && num_gt (to_number len) (default NaN maxLength)
      then Normal (Return (Some ("Maximum length is "
             ++ showNumber host (default NaN maxLength) ++ " characters")))
      else if opt_str_truthy pattern then
        match regexTest host (default "" pattern) (to_string value) with
        | None => Throw "SyntaxError"
        | Some true => Normal Break
        | Some false =>
            Normal (Return (Some ("Invalid format for " ++ q_label question)))
        end
      else Normal Break
  | KNumber min max =>
      let numValue := to_number value in
      if isNaN numValue
      then Normal (Return (Some "Please enter a valid number"))
      else
        match min with
        | Some m =>
            if num_lt numValue m
            then Normal (Return (Some ("Minimum value is "
                                       ++ showNumber host m)))
            else
              match max with
              | Some mx =>
                  if num_gt numValue mx
                  then Normal (Return (Some ("Maximum value is "
                                             ++ showNumber host mx)))
                  else Normal Break
              | None => Normal Break
              end
        | None =>
            match max with
            | Some mx =>
                if num_gt numValue mx
                then Normal (Return (Some ("Maximum value is "
                                           ++ showNumber host mx)))
                else Normal Break
            | None => Normal Break
            end
        end
  | KDate minDate maxDate =>
      let dateValue := dateTime host value in
      if isNaN dateValue
      then Normal (Return (Some "Please enter a valid date"))
      else if opt_str_truthy minDate
              && num_lt dateValue (dateTime host (VStr (default "" minDate)))
      then Normal (Return (Some ("Date cannot be before "
                                 ++ default "" minDate)))
      else if opt_str_truthy maxDate
              && num_gt dateValue (dateTime host (VStr (default "" maxDate)))
      then Normal (Return (Some ("Date cannot be after "
                                 ++ default "" maxDate)))
      else Normal Break
  | KFile accept maxSize =>
      match value with
      | VArr files => validate_files files accept maxSize
      | VFile _ =>
          r <- validateFileUpload value accept maxSize;;
          Normal (Return r)
      | _ => Normal Break
      end
  | KSelect _ | KCheckbox _ =>
      match value with
      | VArr [] =>
          if q_required question
          then Normal (Return (Some ("Please select at least one option for "
                                     ++ q_label question)))
          else Normal Break
      | _ => Normal Break
      end
  end.

(** The loop over [question.validation]: the first [custom] rule whose
    callback does not return [true] decides. *)
Fixpoint custom_rules (rules : list ValidationRule) (value : Value)
    : option string :=
  match rules with
  | [] => None
  | rule :: rest =>
      match rule_type rule, rule_validate rule with
      | RCustom, Some validate =>
          match validate value with
          | RBool true => custom_rules rest value
          | RBool false => Some (rule_message rule)
          | RString s => Some s
          end
      | _, _ => custom_rules rest value
      end
  end.

Definition validateField (question : Question) (value : Value)
    (isVisible : bool) : Completion (option string) :=
  if negb isVisible then Normal None
  else if q_required question && is_empty value
  then Normal (Some (q_label question ++ " is required"))
  else if negb (q_required question) && is_empty value then Normal None
  else
    flow <- type_checks question value;;
    match flow with
    | Return r => Normal r
    | Break =>
        Normal (match q_validation question with
                | Some rules => custom_rules rules value
                | None => None
                end)
    end.

(** One turn of the [forEach] of [validateForm].  [errors[question.id] =
    error] is an insertion into the map for every id that is an
    [assignable_key]. *)
Definition validate_step (formValues : FormValues)
    (errors : gmap string string) (question : Question)
    : Completion (gmap string string) :=
  let isVisible := isFieldVisible question formValues in
  error <- validateField question (get formValues (q_id question)) isVisible;;
  Normal (if opt_str_truthy error
          then <[ q_id question := default "" error ]> errors
          else errors).

Fixpoint validate_loop (formValues : FormValues) (questions : list Question)
    (errors : gmap string string) : Completion (gmap string string) :=
  match questions with
  | [] => Normal errors
  | question :: rest =>
      errors' <- validate_step formValues errors question;;
      validate_loop formValues rest errors'
  end.

Definition validateForm (questions : list Question)
    (formValues : FormValues) : Completion (gmap string string) :=
  validate_loop formValues questions ∅.

End WithHost.

(* ================================================================== *)
(** ** Persistence ([utils/storage.ts]) *)
(* ================================================================== *)

Record AutoSaveState := {
  as_lastSavedAt : string;
  as_isDraft : bool;
  as_draftId : string;
}.

Record PersistedFormState := {
  st_formId : string;
  st_values : FormValues;
  st_autoSave : AutoSaveState;
  st_timestamp : string;
}.

(** A reading of the system clock: [Date.now()] and
    [new Date().toISOString()] of the same instant. *)
Record Instant := {
  ms : Z;
  iso : string;
}.

(** A string held by [localStorage], identified with the JSON document it
    denotes; [Malformed] stands for any text that [JSON.parse] rejects.
    [JSON.parse (JSON.stringify d)] is [d] for every JSON document [d]. *)
Inductive Text :=
| Json (doc : Value)
| Malformed (raw : string).

(** The environment of the storage functions: the contents of
    [localStorage], the successive readings of the clock, and which of the
    successive [setItem] calls the browser refuses (quota exceeded, storage
    disabled). *)
Record World := {
  items : gmap string Text;
  clock : nat -> Instant;
  reads : nat;
  refuses : nat -> bool;
  writes : nat;
}.

Definition with_items (w : World) (m : gmap string Text) : World :=
  {| items := m; clock := clock w; reads := reads w;
     refuses := refuses w; writes := writes w |}.

(** [new Date()] / [Date.now()] *)
Definition now (w : World) : Instant * World :=
  (clock w (reads w),
   {| items := items w; clock := clock w; reads := S (reads w);
      refuses := refuses w; writes := writes w |}).

Definition getItem (w : World) (key : string) : option Text :=
  items w !! key.

Definition setItem (w : World) (key : string) (text : Text)
    : World * Completion unit :=
  let counted :=
    {| items := items w; clock := clock w; reads := reads w;
       refuses := refuses w; writes := S (writes w) |} in
  if refuses w (writes w) then (counted, Throw "QuotaExceededError")
  else (with_items counted (<[ key := text ]> (items w)), Normal tt).

Definition removeItem (w : World) (key : string) : World :=
  with_items w (delete key (items w)).

(** The properties that survive serialisation by [f], in order. *)
Definition keep_fields (f : Value -> option Value)
    : list (string * Value) -> list (string * Value) :=
  fix keep (l : list (string * Value)) : list (string * Value) :=
    match l with
    | [] => []
    | (k, x) :: rest =>
        match f x with
        | Some j => (k, j) :: keep rest
        | None => keep rest
        end
    end.

(** What [JSON.stringify] keeps of a value: [None] is [undefined] (the
    property is omitted, an array slot becomes [null]); [NaN] becomes
    [null]; a [File] has no enumerable property and becomes [{}]. *)
Fixpoint json_of (v : Value) : option Value :=
  match v with
  | VUndef => None
  | VNull => Some VNull
  | VBool b => Some (VBool b)
  | VNum NaN => Some VNull
  | VNum (Fin q) => Some (VNum (Fin q))
  | VStr s => Some (VStr s)
  | VFile _ => Some (VObj [])
  | VArr items => Some (VArr (map (fun x => default VNull (json_of x)) items))
  | VObj fields => Some (VObj (keep_fields json_of fields))
  end.

(** The values that are JSON documents: no [undefined], [NaN] or [File]
    at any depth.  The numbers of the model are the finite ones; the
    infinities, which [JSON.stringify] writes as [null], and the negative
    zero, which it writes as [0], are not among them. *)
Fixpoint json_clean (v : Value) : bool :=
  match v with
  | VUndef | VFile _ | VNum NaN => false
  | VNull | VBool _ | VNum (Fin _) | VStr _ => true
  | VArr items => forallb json_clean items
  | VObj fields => forallb (fun '(_, x) => json_clean x) fields
  end.

(** [JSON.stringify(v)], as the text handed to [setItem]. *)
Definition stringify (v : Value) : Text :=
  match json_of v with
  | Some doc => Json doc
  | None => Malformed "undefined"
  end.

(** [JSON.parse(text)] *)
Definition parse (text : Text) : Completion Value :=
  match text with
  | Json doc => Normal doc
  | Malformed _ => Throw "SyntaxError"
  end.

(** Truthiness of a stored string: only [''] is falsy. *)
Definition text_truthy (text : Text) : bool :=
  match text with
  | Json _ => true
  | Malformed raw => str_truthy raw
  end.

(** [stored ? JSON.parse(stored) : fallback] inside [try]/[catch], the
    [catch] returning [fallback] as well. *)
Definition parse_or (fallback : Value) (stored : option Text) : Value :=
  match stored with
  | Some text =>
      if text_truthy text then
        match parse text with
        | Normal v => v
        | Throw _ => fallback
        end
      else fallback
  | None => fallback
  end.

Definition STORAGE_PREFIX : string := "risk-form:".

Definition getStorageKey (formId : string) : string :=
  STORAGE_PREFIX ++ formId.

Definition getDraftsListKey (formId : string) : string :=
  STORAGE_PREFIX ++ "drafts:" ++ formId.

Definition draftKey (formId draftId : string) : string :=
  STORAGE_PREFIX ++ "draft:" ++ formId ++ ":" ++ draftId.

(** The object literal of a [PersistedFormState]. *)
Definition autoSave_value (a : AutoSaveState) : Value :=
  VObj [ ("lastSavedAt", VStr (as_lastSavedAt a));
         ("isDraft", VBool (as_isDraft a));
         ("draftId", VStr (as_draftId a)) ].

Definition state_value (s : PersistedFormState) : Value :=
  VObj [ ("formId", VStr (st_formId s));
         ("values", VObj (map_to_list (st_values s)));
         ("autoSave", autoSave_value (st_autoSave s));
         ("timestamp", VStr (st_timestamp s)) ].

Definition saveFormState (w : World) (formId : string) (values : FormValues)
    (draftId : option string) : World * Completion PersistedFormState :=
  let (t1, w1) := now w in
  let autoSave :=
    {| as_lastSavedAt := iso t1;
       as_isDraft := opt_str_truthy draftId;
       as_draftId := if opt_str_truthy draftId then default "" draftId
                     else "" |} in
  let (t2, w2) := now w1 in
  let state :=
    {| st_formId := formId; st_values := values; st_autoSave := autoSave;
       st_timestamp := iso t2 |} in
  let key := getStorageKey formId in
  match setItem w2 key (stringify (state_value state)) with
  | (w3, Normal _) => (w3, Normal state)
  | (w3, Throw _) => (w3, Throw "Failed to save form state")
  end.

Definition loadFormState (w : World) (formId : string) : Value :=
  parse_or VNull (getItem w (getStorageKey formId)).

Definition clearFormState (w : World) (formId : string) : World :=
  removeItem w (getStorageKey formId).

Definition loadDraft (w : World) (formId draftId : string) : Value :=
  parse_or VNull (getItem w (draftKey formId draftId)).

Definition getDraftsList (w : World) (formId : string) : Value :=
  parse_or (VArr []) (getItem w (getDraftsListKey formId)).

(** Decimal printing of an integer, as [String(n)] prints a safe integer. *)
Definition show_Z (z : Z) : string :=
  DecimalString.NilZero.string_of_int (Z.to_int z).

Definition entry_value (id name createdAt updatedAt : string) : Value :=
  VObj [ ("id", VStr id); ("name", VStr name);
         ("createdAt", VStr createdAt); ("updatedAt", VStr updatedAt) ].

Definition saveDraft (w : World) (formId draftName : string)
    (values : FormValues) (draftId : option string)
    : World * Completion string :=
  let (newDraftId, w0) :=
    if opt_str_truthy draftId then (default "" draftId, w)
    else let (t0, w') := now w in ("draft-" ++ show_Z (ms t0), w') in
  let key := draftKey formId newDraftId in
  let (t1, w1) := now w0 in
  let autoSave :=
    {| as_lastSavedAt := iso t1; as_isDraft := true;
       as_draftId := newDraftId |} in
  let (t2, w2) := now w1 in
  let state :=
    {| st_formId := formId; st_values := values; st_autoSave := autoSave;
       st_timestamp := iso t2 |} in
  match setItem w2 key (stringify (state_value state)) with
  | (w3, Throw _) => (w3, Throw "Failed to save draft")
  | (w3, Normal _) =>
      let listKey := getDraftsListKey formId in
      match getDraftsList w3 formId with
      | VArr draftsList =>
          let (t3, w4) := now w3 in
          let (t4, w5) := now w4 in
          let pushed :=
            (draftsList
               ++ [entry_value newDraftId draftName (iso t3) (iso t4)])%list in
          match setItem w5 listKey (stringify (VArr pushed)) with
          | (w6, Normal _) => (w6, Normal newDraftId)
          | (w6, Throw _) => (w6, Throw "Failed to save draft")
          end
      | VUndef | VNull => (w3, Throw "Failed to save draft")
      | _ =>
          (* [push] is not a function; its argument is evaluated first *)
          let (_, w4) := now w3 in
          let (_, w5) := now w4 in
          (w5, Throw "Failed to save draft")
      end
  end.

(** [list.filter(f)] for a callback that may throw. *)
Fixpoint filter_c {A : Type} (f : A -> Completion bool) (l : list A)
    : Completion (list A) :=
  match l with
  | [] => Normal []
  | x :: rest =>
      keep <- f x;;
      kept <- filter_c f rest;;
      Normal (if keep then x :: kept else kept)
  end.

(** [(d) => d.id !== draftId] *)
Definition other_draft (draftId : string) (d : Value) : Completion bool :=
  id <- prop d "id";;
  Normal (negb (strict_eq id (VStr draftId))).

Definition deleteDraft (w : World) (formId draftId : string) : World :=
  let w1 := removeItem w (draftKey formId draftId) in
  let listKey := getDraftsListKey formId in
  match getDraftsList w1 formId with
  | VArr draftsList =>
      match filter_c (other_draft draftId) draftsList with
      | Normal filteredList =>
          fst (setItem w1 listKey (stringify (VArr filteredList)))
      | Throw _ => w1
      end
  | _ => w1
  end.

(** [obj.key = v] on an object literal. *)
Fixpoint obj_set (fields : list (string * Value)) (key : string) (v : Value)
    : list (string * Value) :=
  match fields with
  | [] => [(key, v)]
  | (k, x) :: rest =>
      if String.eqb k key then (k, v) :: rest
      else (k, x) :: obj_set rest key v
  end.

(** Position of the first element accepted by a callback that may throw,
    as [list.find] visits them. *)
Fixpoint find_c {A : Type} (f : A -> Completion bool) (l : list A)
    : Completion (option nat) :=
  match l with
  | [] => Normal None
  | x :: rest =>
      hit <- f x;;
      if (hit : bool) then Normal (Some 0%nat)
      else found <- find_c f rest;; Normal (S <$> found)
  end.

(** [(d) => d.id === draftId] *)
Definition same_draft (draftId : string) (d : Value) : Completion bool :=
  id <- prop d "id";;
  Normal (strict_eq id (VStr draftId)).

Definition renameDraft (w : World) (formId draftId newName : string)
    : World :=
  let listKey := getDraftsListKey formId in
  match getDraftsList w formId with
  | VArr draftsList =>
      match find_c (same_draft draftId) draftsList with
      | Normal (Some i) =>
          match draftsList !! i with
          | Some (VObj fields) =>
              let (t, w1) := now w in
              let draft :=
                VObj (obj_set (obj_set fields "name" (VStr newName))
                              "updatedAt" (VStr (iso t))) in
              fst (setItem w1 listKey
                     (stringify (VArr (<[ i := draft ]> draftsList))))
          | _ => w
          end
      | _ => w
      end
  | _ => w
  end.

(* ================================================================== *)
(** ** A small host and a fresh browser, to run the functions *)
(* ================================================================== *)

(** Integers in decimal notation, patterns without metacharacters, and
    dates given as a number of milliseconds; enough for the examples
    below, none of which depends on more. *)
Definition exampleHost : Host :=
  {| parseNumber := fun s =>
       let t := trim s in
       if String.eqb t "" then Fin 0
       else match NilZero.int_of_string t with
            | Some i => Fin (inject_Z (Z.of_int i))
            | None => NaN
            end;
     showNumber := fun n =>
       match n with
       | NaN => "NaN"
       | Fin q => if (Z.pos (Qden (Qred q)) =? 1)%Z
                  then show_Z (Qnum (Qred q))
                  else show_Z (Qnum (Qred q)) ++ "/"
                       ++ show_Z (Z.pos (Qden (Qred q)))
       end;
     regexTest := fun pattern s => Some (string_includes s pattern);
     dateTime := fun v =>
       match v with
       | VNum n => n
       | _ => NaN
       end |}.

(** An empty [localStorage] that accepts every write, with a clock that
    advances by one millisecond per reading. *)
Definition freshWorld : World :=
  {| items := ∅;
     clock := fun n => {| ms := 1700000000000 + Z.of_nat n;
                          iso := "t" ++ show_Z (Z.of_nat n) |};
     reads := 0;
     refuses := fun _ => false;
     writes := 0 |}.

(* ================================================================== *)
(** ** Example configurations *)
(* ================================================================== *)

Definition plain_question (id label : string) (weight : option Num)
    (kind : QuestionKind) : Question :=
  {| q_id := id; q_label := label; q_required := false;
     q_riskWeight := weight; q_conditional := None; q_validation := None;
     q_kind := kind |}.

Definition risk_option (label value : string) (risk : Q) : OptionItem :=
  OptObject {| opt_label := label; opt_value := value;
               opt_riskValue := Some (Fin risk) |}.

(** The select question of [riskCalculation.test.ts]. *)
Definition yesNoQuestion : Question :=
  plain_question "q1" "Question 1" (Some (Fin 10))
    (KSelect [ risk_option "Yes" "yes" 0; risk_option "No" "no" 10 ]).

Definition yesNoConfig : FormConfig :=
  {| cfg_id := "test-form";
     cfg_sections :=
       [ {| sec_id := "section1"; sec_questions := [yesNoQuestion] |} ];
     cfg_maxRiskScore := Some (Fin 100) |}.

(** [mockConfig] of [riskCalculation.test.ts]: the select question and a
    number question of weight 5. *)
Definition mockConfig : FormConfig :=
  {| cfg_id := "test-form";
     cfg_sections :=
       [ {| sec_id := "section1";
            sec_questions :=
              [ yesNoQuestion;
                plain_question "q2" "Question 2" (Some (Fin 5))
                  (KNumber None None) ] |} ];
     cfg_maxRiskScore := Some (Fin 100) |}.

Definition incidentsQuestion : Question :=
  plain_question "incidents" "Incidents last year" (Some (Fin 5))
    (KNumber None None).

(** The same question, marked required. *)
Definition requiredIncidents : Question :=
  {| q_id := "incidents"; q_label := "Incidents last year";
     q_required := true; q_riskWeight := Some (Fin 5);
     q_conditional := None; q_validation := None;
     q_kind := KNumber None None |}.

Definition incidentsConfig : FormConfig :=
  {| cfg_id := "incidents-form";
     cfg_sections :=
       [ {| sec_id := "history"; sec_questions := [incidentsQuestion] |} ];
     cfg_maxRiskScore := Some (Fin 100) |}.

Definition controlsQuestion : Question :=
  plain_question "controls" "Controls in place" (Some (Fin 10))
    (KCheckbox [ risk_option "Firewall" "fw" 2; risk_option "None" "none" 8;
                 OptString "other" ]).

(** A checkbox whose first option carries the [riskValue] 0. *)
Definition exposureQuestion : Question :=
  plain_question "exposure" "Exposure" (Some (Fin 10))
    (KCheckbox [ risk_option "None" "none" 0; risk_option "Some" "some" 4;
                 OptString "other" ]).

(** An option whose [riskValue] is above the weight of its question. *)
Definition severityQuestion : Question :=
  plain_question "severity" "Severity" (Some (Fin 10))
    (KSelect [ risk_option "Minor" "minor" 5; risk_option "Major" "major" 20 ]).

Definition severityConfig : FormConfig :=
  {| cfg_id := "severity-form";
     cfg_sections :=
       [ {| sec_id := "impact"; sec_questions := [severityQuestion] |} ];
     cfg_maxRiskScore := Some (Fin 100) |}.

(* ================================================================== *)
(** ** The scoring rule in the words of the specification *)
(* ================================================================== *)

(** "Each selected option's riskValue, falling back to riskWeight per
    option without one." *)
Definition spec_selected_risk (options : list OptionItem) (weight : Q)
    (val : Value) : Q :=
  match List.find (option_matches val) options with
  | Some (OptObject o) =>
      match opt_riskValue o with
      | Some (Fin r) => r
      | _ => weight
      end
  | _ => weight
  end.

(** "Arithmetic mean": the sum of the list, taken from its head onwards,
    over its length. *)
Definition spec_mean (l : list Q) : Q :=
  (fold_left Qplus l 0 / inject_Z (Z.of_nat (length l)))%Q.

(** The [riskValue] of an option, when present, is a number other than 0. *)
Definition riskValue_nonzero (opt : OptionItem) : bool :=
  match opt with
  | OptString _ => true
  | OptObject o =>
      match opt_riskValue o with
      | None => true
      | Some NaN => false
      | Some (Fin r) => Qnonzero r
      end
  end.

(** The option that the value selects, the first one that matches it,
    carries no [riskValue] or one that is a number other than 0; so does a
    value that selects no option. *)
Definition selects_nonzero (options : list OptionItem) (val : Value) : bool :=
  match List.find (option_matches val) options with
  | Some opt => riskValue_nonzero opt
  | None => true
  end.

(** No option of the question carries a [riskValue]. *)
Definition no_riskValue (opt : OptionItem) : bool :=
  match opt with
  | OptString _ => true
  | OptObject o =>
      match opt_riskValue o with
      | None => true
      | Some _ => false
      end
  end.

Definition without_riskValues (question : Question) : bool :=
  match options_of (q_kind question) with
  | Some options => forallb no_riskValue options
  | None => true
  end.

(** The answers that [calculateQuestionRiskScore] treats as no answer:
    the falsy values and the empty array. *)
Definition unanswered (answer : Value) : bool :=
  negb (truthy answer) || match answer with VArr [] => true | _ => false end.

(* ================================================================== *)
(** ** Example questions for visibility and validation *)
(* ================================================================== *)

Definition conditional_question (id label : string) (required : bool)
    (c : ConditionalLogic) : Question :=
  {| q_id := id; q_label := label; q_required := required;
     q_riskWeight := None; q_conditional := Some c; q_validation := None;
     q_kind := KText None None None |}.

(** Shown when the count of incidents is above -1. *)
Definition followUpQuestion : Question :=
  conditional_question "followUp" "Follow-up" false
    {| cond_questionId := "count"; cond_answer := num (-1);
       cond_operator := Some "greaterThan" |}.

Definition tagsCondition : ConditionalLogic :=
  {| cond_questionId := "tags"; cond_answer := VArr [VStr "a"];
     cond_operator := Some "includes" |}.

Definition taggedQuestion : Question :=
  conditional_question "tagged" "Tagged" false tagsCondition.

(** A required question that depends on the answer to "q1". *)
Definition detailsQuestion : Question :=
  conditional_question "details" "Details" true
    {| cond_questionId := "q1"; cond_answer := VStr "yes";
       cond_operator := None |}.

Definition nameQuestion : Question :=
  {| q_id := "q1"; q_label := "Name"; q_required := true;
     q_riskWeight := None; q_conditional := None; q_validation := None;
     q_kind := KText None None None |}.

Definition emailQuestion : Question :=
  {| q_id := "q2"; q_label := "Email"; q_required := true;
     q_riskWeight := None; q_conditional := None; q_validation := None;
     q_kind := KText None None None |}.

Definition unconditional (question : Question) : bool :=
  match q_conditional question with
  | None => true
  | Some _ => false
  end.

(** The error map that [validateForm] builds over empty values: the
    required-field message under the id of each unconditional question. *)
Definition required_errors (questions : list Question)
    (errors : gmap string string) : gmap string string :=
  fold_left
    (fun m question =>
       if unconditional question
       then <[ q_id question := q_label question ++ " is required" ]> m
       else m)
    questions errors.

(* ================================================================== *)
(** ** Example answers for persistence *)
(* ================================================================== *)

Definition reportFile : Value :=
  VFile {| file_name := "report.pdf"; file_size := Fin 2048;
           file_type := "application/pdf" |}.

(** The answers of a form with one file question, as [FileField] sets them. *)
Definition uploadValues : FormValues := {[ "doc" := VArr [reportFile] ]}.

Definition testValues : FormValues :=
  {[ "q1" := VStr "answer1"; "q2" := num 42 ]}.

(** The [values] of a loaded state, as a dictionary. *)
Definition values_of (state : Value) : option FormValues :=
  match state with
  | VObj fields =>
      match obj_get fields "values" with
      | VObj vs => Some (list_to_map vs)
      | _ => None
      end
  | _ => None
  end.

(** [list.length] of a loaded drafts index. *)
Definition index_length (index : Value) : option nat :=
  match index with
  | VArr entries => Some (length entries)
  | _ => None
  end.

(** The state that [saveFormState] builds. *)
Definition built_state (w : World) (formId : string) (values : FormValues)
    (draftId : option string) : PersistedFormState :=
  {| st_formId := formId;
     st_values := values;
     st_autoSave :=
       {| as_lastSavedAt := iso (clock w (reads w));
          as_isDraft := opt_str_truthy draftId;
          as_draftId := if opt_str_truthy draftId then default "" draftId
                        else "" |};
     st_timestamp := iso (clock w (S (reads w))) |}.

(** [JSON.parse (JSON.stringify entries)] *)
Definition reparsed (entries : list Value) : list Value :=
  map (fun x => default VNull (json_of x)) entries.

(* ================================================================== *)
(** ** Induction on values *)
(* ================================================================== *)

(** Structural induction through arrays and objects. *)
Section ValueInduction.

Variable P : Value -> Prop.
Hypothesis Hundef : P VUndef.
Hypothesis Hnull : P VNull.
Hypothesis Hbool : forall b, P (VBool b).
Hypothesis Hnum : forall n, P (VNum n).
Hypothesis Hstr : forall s, P (VStr s).
Hypothesis Hfile : forall f, P (VFile f).
Hypothesis Harr : forall items, Forall P items -> P (VArr items).
Hypothesis Hobj :
  forall fields, Forall (fun kv => P (snd kv)) fields -> P (VObj fields).

Fixpoint Value_nested_ind (v : Value) : P v :=
  match v with
  | VUndef => Hundef
  | VNull => Hnull
  | VBool b => Hbool b
  | VNum n => Hnum n
  | VStr s => Hstr s
  | VFile f => Hfile f
  | VArr items =>
      Harr items
        ((fix all (l : list Value) : Forall P l :=
            match l with
            | [] => List.Forall_nil P
            | x :: rest =>
                @List.Forall_cons _ P x rest (Value_nested_ind x) (all rest)
            end) items)
  | VObj fields =>
      Hobj fields
        ((fix all (l : list (string * Value))
            : Forall (fun kv => P (snd kv)) l :=
            match l with
            | [] => List.Forall_nil _
            | kv :: rest =>
                @List.Forall_cons _ (fun kv => P (snd kv)) kv rest
                  (Value_nested_ind (snd kv)) (all rest)
            end) fields)
  end.

End ValueInduction.

(** Reduce the projections of the worlds built by [now] and [setItem]. *)
Ltac world_step :=
  cbv beta iota;
  cbn [reads writes refuses items clock with_items fst snd].

(* ================================================================== *)
(** ** Import, export and purge ([utils/storage.ts]) *)
(* ================================================================== *)

(** [saveFormState] as [importFormState] calls it, with the [values] and the
    [draftId] read off a parsed document, whatever they are. *)
Definition saveFormState_dyn (w : World) (formId : string)
    (values draftId : Value) : World * Completion Value :=
  let (t1, w1) := now w in
  let autoSave :=
    VObj [ ("lastSavedAt", VStr (iso t1));
           ("isDraft", VBool (truthy draftId));
           ("draftId", if truthy draftId then draftId else VStr "") ] in
  let (t2, w2) := now w1 in
  let state :=
    VObj [ ("formId", VStr formId); ("values", values);
           ("autoSave", autoSave); ("timestamp", VStr (iso t2)) ] in
  let key := getStorageKey formId in
  match setItem w2 key (stringify state) with
  | (w3, Normal _) => (w3, Normal state)
  | (w3, Throw _) => (w3, Throw "Failed to save form state")
  end.

Definition exportFormState (w : World) (formId : string) : Completion Text :=
  let state := loadFormState w formId in
  if negb (truthy state) then Throw "No form state to export"
  else Normal (stringify state).

(** The body of the [try] of [importFormState], up to the call of
    [saveFormState]: the arguments of that call, or the error thrown. *)
Definition import_arguments (formId : string) (jsonData : Text)
    : Completion (Value * Value) :=
  state <- parse jsonData;;
  stateId <- prop state "formId";;
  if negb (strict_eq stateId (VStr formId)) then Throw "Form ID mismatch"
  else
    values <- prop state "values";;
    autoSave <- prop state "autoSave";;
    draftId <- prop autoSave "draftId";;
    Normal (values, draftId).

Definition importFormState (w : World) (formId : string) (jsonData : Text)
    : World * Completion Value :=
  match import_arguments formId jsonData with
  | Normal (values, draftId) =>
      match saveFormState_dyn w formId values draftId with
      | (w', Normal state) => (w', Normal state)
      | (w', Throw _) => (w', Throw "Invalid form data")
      end
  | Throw _ => (w, Throw "Invalid form data")
  end.

(** [key?.startsWith(STORAGE_PREFIX)] over the keys of [localStorage]. *)
Definition namespaced_keys (w : World) : list string :=
  List.filter (String.prefix STORAGE_PREFIX) (map fst (map_to_list (items w))).

Definition clearAllStorage (w : World) : World :=
  let keysToDelete := namespaced_keys w in
  fold_left removeItem keysToDelete w.

(* ================================================================== *)
(** ** Callers in the components *)
(* ================================================================== *)

(** [getOptions] of the select and checkbox fields: a bare string becomes
    the option [{label: opt, value: opt}]. *)
Definition getOptions (options : list OptionItem) : list OptionItem :=
  map (fun opt =>
         match opt with
         | OptString s =>
             OptObject {| opt_label := s; opt_value := s;
                          opt_riskValue := None |}
         | OptObject o => OptObject o
         end) options.

(** A question with its options normalised by [getOptions]. *)
Definition with_options (question : Question) : Question :=
  {| q_id := q_id question; q_label := q_label question;
     q_required := q_required question;
     q_riskWeight := q_riskWeight question;
     q_conditional := q_conditional question;
     q_validation := q_validation question;
     q_kind := match q_kind question with
               | KSelect options => KSelect (getOptions options)
               | KCheckbox options => KCheckbox (getOptions options)
               | kind => kind
               end |}.

(** The [onChange] of the checkbox group: the new answer after the box of
    [target] is checked or unchecked, [fieldValue] being [field.value]. *)
Definition checkbox_change (checked : bool) (target : string)
    (fieldValue : option (list string)) : list string :=
  let current := default [] fieldValue in
  if checked then (current ++ [target])%list
  else List.filter (fun v => negb (String.eqb v target)) current.

(** [validateFile] of [FileField.tsx], on the [File] objects of the input. *)
Definition FileField_validateFile (host : Host) (accept : option string)
    (maxSize : option Num) (file : FileObj) : option string :=
  let typeError :=
    if opt_str_truthy accept then
      let accept_ := default "" accept in
      let acceptedTypes := map trim (split_on "," accept_) in
      let fileExtension := file_extension (file_name file) in
      let isAccepted :=
        existsb
          (fun type =>
             if String.prefix "." type
             then String.eqb (toLowerCase fileExtension) (toLowerCase type)
             else string_includes (file_type file) type)
          acceptedTypes in
      if isAccepted then None
      else Some ("File type not supported. Accepted types: " ++ accept_)
    else None in
  match typeError with
  | Some e => Some e
  | None =>
      if opt_num_truthy maxSize then
        let maxSizeBytes :=
          match maxSize with
          | Some (Fin m) => Fin (m * 1024 * 1024)
          | _ => NaN
          end in
        if num_gt (file_size file) maxSizeBytes
        then Some ("File size exceeds "
                   ++ showNumber host (default NaN maxSize) ++ "MB limit")
        else None
      else None
  end.

(** [allQuestions] of [handleFormSubmit]: the visible questions of every
    section, in order. *)
Definition allQuestions (host : Host) (config : FormConfig)
    (formValues : FormValues) : list Question :=
  fold_left
    (fun acc section =>
       (acc ++ getVisibleQuestions host (sec_questions section) formValues)
       %list)
    (cfg_sections config) [].

(** Every question of the config, in order. *)
Definition questions_of (config : FormConfig) : list Question :=
  concat (map sec_questions (cfg_sections config)).

(* ================================================================== *)
(** ** Vocabulary of the further facts *)
(* ================================================================== *)

(** The score and the weight that one question adds to the sums. *)
Definition question_score (values : FormValues) (question : Question) : Q :=
  calculateQuestionRiskScore question (get values (q_id question)).

Definition question_weight (question : Question) : Q :=
  num_or (q_riskWeight question) 0.

(** The entry of a section in the breakdown. *)
Definition section_entry (values : FormValues) (section : FormSection)
    : SectionBreakdown :=
  let score := sum_reduce (map (question_score values)
                             (sec_questions section)) in
  let max := sum_reduce (map question_weight (sec_questions section)) in
  {| bd_score := score; bd_maxScore := max;
     bd_percentage := percent_of score max |}.

(** A [riskValue], when one is given and is not NaN, lies between 0 and
    the weight of the question. *)
Definition option_within (weight : Q) (opt : OptionItem) : bool :=
  match opt with
  | OptString _ => true
  | OptObject o =>
      match opt_riskValue o with
      | Some (Fin r) => Qle_bool 0 r && Qle_bool r weight
      | _ => true
      end
  end.

(** The weight of the question is not negative and bounds the
    [riskValue] of each of its options. *)
Definition question_within (question : Question) : bool :=
  Qle_bool 0 (question_weight question) &&
  match options_of (q_kind question) with
  | Some options => forallb (option_within (question_weight question)) options
  | None => true
  end.

(** A whole number of at most a million.  An array holds fewer than 2^32
    values, so a sum of that many such numbers stays below 2^53 and the
    additions of the code are exact. *)
Definition whole_number (q : Q) : bool :=
  Qeq_bool q (inject_Z (Qfloor q)) && Qle_bool q 1000000.

Definition option_whole (opt : OptionItem) : bool :=
  match opt with
  | OptString _ => true
  | OptObject o =>
      match opt_riskValue o with
      | Some (Fin r) => whole_number r
      | _ => true
      end
  end.

(** The weight of the question and the [riskValue] of each of its options
    are whole numbers of at most a million. *)
Definition question_whole (question : Question) : bool :=
  whole_number (question_weight question) &&
  match options_of (q_kind question) with
  | Some options => forallb option_whole options
  | None => true
  end.

(** The result for a form on which nothing is scored. *)
Definition scores_nothing (r : RiskScore) : Prop :=
  totalScore r = 0%Q /\ percentage r = 0%Q /\ level r = Low.

(** A rule lets the value pass: it is not a [custom] rule with a callback,
    or its callback returns [true]. *)
Definition rule_accepts (value : Value) (rule : ValidationRule) : bool :=
  match rule_type rule, rule_validate rule with
  | RCustom, Some validate =>
      match validate value with
      | RBool true => true
      | _ => false
      end
  | _, _ => true
  end.

(** A form id that does not start with "draft": its state key cannot be
    the key of a draft or of a drafts index. *)
Definition plain_id (formId : string) : bool :=
  negb (String.prefix "draft" formId).

(** The id under which [saveDraft] stores: the one given, if truthy, or one
    made from the clock. *)
Definition draft_id_for (w : World) (draftId : option string) : string :=
  if opt_str_truthy draftId then default "" draftId
  else "draft-" ++ show_Z (ms (clock w (reads w))).

(** The entry is an object whose [id] is, or is not, the given one. *)
Definition has_id (draftId : string) (d : Value) : bool :=
  match d with
  | VObj fields => strict_eq (obj_get fields "id") (VStr draftId)
  | _ => false
  end.

Definition is_object (d : Value) : bool :=
  match d with VObj _ => true | _ => false end.

(** A browser like [freshWorld] that refuses every write after the
    first. *)
Definition nearlyFullWorld : World :=
  {| items := ∅;
     clock := clock freshWorld;
     reads := 0;
     refuses := fun n => negb (n =? 0)%nat;
     writes := 0 |}.

(** The fields of a draft entry after [renameDraft]. *)
Definition renamed_fields (fields : list (string * Value))
    (newName stamp : string) : list (string * Value) :=
  obj_set (obj_set fields "name" (VStr newName)) "updatedAt" (VStr stamp).

(** Two entries of a drafts index, as [saveDraft] writes them. *)
Definition entryA : Value := entry_value "a" "Draft A" "t0" "t0".
Definition entryB : Value := entry_value "b" "Draft B" "t1" "t1".

Definition indexedWorld : World :=
  {| items := {[ getDraftsListKey "form1" := Json (VArr [entryA; entryB]) ]};
     clock := clock freshWorld;
     reads := 0;
     refuses := fun _ => false;
     writes := 0 |}.

(* ================================================================== *)
(** ** Facts about risk scoring *)
(* ================================================================== *)

Lemma strict_eq_empty_falsy (answer : Value) :
  strict_eq answer (VStr "") = true -> truthy answer = false.
Proof.
  destruct answer as [| |b|n|s|f|l|fs]; simpl; try discriminate.
  - destruct n; discriminate.
  - intros H. apply String.eqb_eq in H. subst s. reflexivity.
Qed.

(** The guard at the head of [calculateQuestionRiskScore], in one test. *)
Lemma score_guard (question : Question) (answer : Value) :
  calculateQuestionRiskScore question answer =
  if unanswered answer then 0%Q
  else
    let weight := num_or (q_riskWeight question) 0 in
    match options_of (q_kind question) with
    | Some options =>
        match is_checkbox (q_kind question), answer with
        | true, VArr vals =>
            let riskValues := map (option_risk options weight) vals in
            if (0 <? length riskValues)%nat
            then (sum_reduce riskValues
                  / inject_Z (Z.of_nat (length riskValues)))%Q
            else weight
        | _, _ => option_risk options weight answer
        end
    | None => weight
    end.
Proof.
  unfold calculateQuestionRiskScore, unanswered.
  destruct (strict_eq answer (VStr "")) eqn:E.
  - apply strict_eq_empty_falsy in E. rewrite E. reflexivity.
  - rewrite orb_false_r. reflexivity.
Qed.

Lemma fold_left_Qplus (l : list Q) (a : Q) :
  (fold_left Qplus l a == a + fold_right Qplus 0 l)%Q.
Proof.
  revert a. induction l as [|x l IH]; intros a; simpl.
  - ring.
  - rewrite IH. ring.
Qed.

Lemma sum_reduce_fold_right (l : list Q) :
  (sum_reduce l == fold_right Qplus 0 l)%Q.
Proof. unfold sum_reduce. rewrite fold_left_Qplus. ring. Qed.

Lemma option_risk_weight (options : list OptionItem) (weight : Q)
    (val : Value) :
  forallb no_riskValue options = true ->
  option_risk options weight val = weight.
Proof.
  intros Hall. unfold option_risk.
  destruct (List.find (option_matches val) options) as [opt|] eqn:Hfind;
    [|reflexivity].
  apply find_some in Hfind as [Hin _].
  rewrite forallb_forall in Hall. specialize (Hall opt Hin).
  destruct opt as [s|o]; simpl in *; [reflexivity|].
  destruct (opt_riskValue o); [discriminate|reflexivity].
Qed.

Lemma length_positive (A : Type) (l : list A) :
  l <> [] -> (0 <? length l)%nat = true.
Proof. destruct l; [congruence|reflexivity]. Qed.

(** Single select: the matched option's [riskValue] when it is a number
    other than 0. *)
Lemma select_scores_riskValue (question : Question)
    (options : list OptionItem) (answer : Value) (o : SelectOption) (r : Q) :
  q_kind question = KSelect options ->
  unanswered answer = false ->
  List.find (option_matches answer) options = Some (OptObject o) ->
  opt_riskValue o = Some (Fin r) ->
  Qnonzero r = true ->
  calculateQuestionRiskScore question answer = r.
Proof.
  intros Hkind Hans Hfind Hrisk Hnz. rewrite score_guard, Hans, Hkind.
  cbn [options_of is_checkbox]. cbv zeta. unfold option_risk.
  rewrite Hfind. cbn [riskValue_of]. rewrite Hrisk. cbn [num_or].
  rewrite Hnz. reflexivity.
Qed.

(** Single select: the [riskWeight] when no option matches or the matched
    option has no [riskValue]. *)
Lemma select_falls_back (question : Question) (options : list OptionItem)
    (answer : Value) :
  q_kind question = KSelect options ->
  unanswered answer = false ->
  riskValue_of (List.find (option_matches answer) options) = None ->
  calculateQuestionRiskScore question answer
  = num_or (q_riskWeight question) 0.
Proof.
  intros Hkind Hans Hnone. rewrite score_guard, Hans, Hkind.
  cbn [options_of is_checkbox]. cbv zeta. unfold option_risk.
  rewrite Hnone. reflexivity.
Qed.

(** Single select: the [riskWeight] as well when the matched option has the
    [riskValue] 0. *)
Lemma select_zero_riskValue (question : Question)
    (options : list OptionItem) (answer : Value) (o : SelectOption) (r : Q) :
  q_kind question = KSelect options ->
  unanswered answer = false ->
  List.find (option_matches answer) options = Some (OptObject o) ->
  opt_riskValue o = Some (Fin r) ->
  (r == 0)%Q ->
  calculateQuestionRiskScore question answer
  = num_or (q_riskWeight question) 0.
Proof.
  intros Hkind Hans Hfind Hrisk Hzero. rewrite score_guard, Hans, Hkind.
  cbn [options_of is_checkbox]. cbv zeta. unfold option_risk.
  rewrite Hfind. cbn [riskValue_of]. rewrite Hrisk. cbn [num_or].
  unfold Qnonzero. apply Qeq_bool_iff in Hzero. rewrite Hzero. reflexivity.
Qed.

Lemma is_empty_unanswered (answer : Value) :
  is_empty answer = true -> unanswered answer = true.
Proof.
  destruct answer as [| |b|n|s|f|l|fs]; simpl; try discriminate;
    try reflexivity.
  intros H. apply String.eqb_eq in H. subst s. reflexivity.
Qed.

(** C1. In the scenario of the specification (one select question with
    options yes/riskValue 0 and no/riskValue 10, riskWeight 10, maxRiskScore
    100) the code reports totalScore 100 and level Critical for the answer
    "yes": the riskValue 0 is falsy, so [riskValue || weight] scores the full
    weight.  The answer "no" gives 100 and Critical, no answer gives 0 and
    Low, as the specification says.  On the config of the repository's own
    test, whose assertion for the answer "yes" is level Low, the code reports
    67 and High. *)
Theorem yes_answer_scores_full_weight :
  let yes := calculateRiskScore yesNoConfig {[ "q1" := VStr "yes" ]} in
  let no := calculateRiskScore yesNoConfig {[ "q1" := VStr "no" ]} in
  let none := calculateRiskScore yesNoConfig ∅ in
  let tested := calculateRiskScore mockConfig {[ "q1" := VStr "yes" ]} in
  (totalScore yes = 100%Q /\ level yes = Critical) /\
  (totalScore no = 100%Q /\ level no = Critical) /\
  (totalScore none = 0%Q /\ level none = Low) /\
  (totalScore tested = 67%Q /\ level tested = High).
Proof. vm_compute. repeat split; reflexivity. Qed.

(** What holds of the binary rule.  An answer that the guard takes for
    none (a falsy value or an empty array, so every empty or absent answer)
    scores 0 whatever the type of the question.  Any other answer to a
    question without riskValue-carrying options scores the riskWeight, 0
    when the riskWeight is absent; a checkbox answer, an array, scores the
    mean of that weight taken once per selected value. *)
Lemma answered_scores_weight (question : Question) (answer : Value) :
  (unanswered answer = true ->
     calculateQuestionRiskScore question answer = 0%Q) /\
  (is_empty answer = true ->
     calculateQuestionRiskScore question answer = 0%Q) /\
  (unanswered answer = false -> without_riskValues question = true ->
     calculateQuestionRiskScore question answer
     = let weight := num_or (q_riskWeight question) 0 in
       match is_checkbox (q_kind question), answer with
       | true, VArr vals =>
           (sum_reduce (map (fun _ => weight) vals)
            / inject_Z (Z.of_nat (length vals)))%Q
       | _, _ => weight
       end).
Proof.
  rewrite score_guard. repeat split.
  - intros ->. reflexivity.
  - intros H. rewrite (is_empty_unanswered _ H). reflexivity.
  - intros Hans Hno. rewrite Hans. unfold without_riskValues in Hno.
    cbv zeta. set (w := num_or (q_riskWeight question) 0).
    destruct (q_kind question) as [a b c|a b|options|options|a b|a b];
      cbn [options_of is_checkbox] in *;
      try (destruct answer; reflexivity).
    + apply option_risk_weight, Hno.
    + destruct answer as [| |b|n|s|f|vals|fs];
        try (apply option_risk_weight, Hno).
      rewrite length_map. destruct vals as [|v vals]; [discriminate Hans|].
      rewrite length_positive by discriminate.
      rewrite (map_ext _ (fun _ => w)
                 (fun val => option_risk_weight options w val Hno)).
      reflexivity.
Qed.

(** C2. The number 0 is an answer: it is what the number field hands to
    its [onChange] for an input of 0, it is not empty for the guards of
    [isFieldVisible] and [validateField], and [validateField] accepts it
    for a required number question.  [calculateQuestionRiskScore]
    nevertheless takes it for no answer, on every question: [!answer] is
    true of 0.  On a form with one number question of riskWeight 5, which
    carries no options, the answer 0 gives totalScore 0 and level Low, where
    the answers 3 and "0" give 100 and Critical, the full weight that the
    specification gives to every answered question. *)
Theorem zero_answer_scores_nothing :
  (forall question : Question,
     calculateQuestionRiskScore question (num 0) = 0%Q) /\
  is_empty (num 0) = false /\
  validateField exampleHost requiredIncidents (num 0) true = Normal None /\
  without_riskValues incidentsQuestion = true /\
  let zero := calculateRiskScore incidentsConfig {[ "incidents" := num 0 ]} in
  let three := calculateRiskScore incidentsConfig {[ "incidents" := num 3 ]} in
  let text :=
    calculateRiskScore incidentsConfig {[ "incidents" := VStr "0" ]} in
  (totalScore zero = 0%Q /\ level zero = Low) /\
  (totalScore three = 100%Q /\ level three = Critical) /\
  (totalScore text = 100%Q /\ level text = Critical).
Proof.
  split; [intros question; reflexivity|].
  vm_compute. repeat split; reflexivity.
Qed.

(** C3, as stated, fails: a checkbox question whose answer is the empty
    array scores 0, not its riskWeight 10. *)
Lemma empty_selection_scores_nothing :
  calculateQuestionRiskScore controlsQuestion (VArr []) = 0%Q /\
  ~ (calculateQuestionRiskScore controlsQuestion (VArr [])
     == num_or (q_riskWeight controlsQuestion) 0)%Q.
Proof. split; [reflexivity|]. vm_compute. discriminate. Qed.

Lemma option_risk_selected (options : list OptionItem) (weight : Q)
    (val : Value) :
  selects_nonzero options val = true ->
  option_risk options weight val = spec_selected_risk options weight val.
Proof.
  unfold selects_nonzero, option_risk, spec_selected_risk.
  destruct (List.find (option_matches val) options) as [[s|o]|];
    try reflexivity.
  cbn [riskValue_of riskValue_nonzero].
  destruct (opt_riskValue o) as [[|r]|]; cbn [num_or]; try reflexivity.
  intros ->. reflexivity.
Qed.

(** C3, amended. For a checkbox question whose answer is a non-empty array
    in which no selected value picks an option with the riskValue 0 or NaN,
    the score is the arithmetic mean over the selected values (their sum,
    added up from the first value onwards as the code adds it, over their
    number) of the matched option's riskValue, the riskWeight standing in
    for a value whose option has no riskValue or that matches no option.
    The options that are not selected may carry any riskValue.  For the
    empty array the score is 0. *)
Theorem checkbox_scores_mean (question : Question)
    (options : list OptionItem) (vals : list Value) :
  q_kind question = KCheckbox options ->
  forallb (selects_nonzero options) vals = true ->
  (vals <> [] ->
     calculateQuestionRiskScore question (VArr vals)
     = spec_mean (map (spec_selected_risk options
                         (num_or (q_riskWeight question) 0)) vals)) /\
  calculateQuestionRiskScore question (VArr []) = 0%Q.
Proof.
  intros Hkind Hall. split; [|reflexivity].
  intros Hne. rewrite score_guard.
  replace (unanswered (VArr vals)) with false
    by (destruct vals; [congruence|reflexivity]).
  rewrite Hkind. cbn [options_of is_checkbox]. cbv zeta.
  rewrite length_map, length_positive by assumption.
  unfold spec_mean, sum_reduce. rewrite length_map.
  do 2 f_equal. apply map_ext_in. intros val Hin.
  apply option_risk_selected.
  rewrite forallb_forall in Hall. apply Hall, Hin.
Qed.

Lemma checkbox_scores_mean_witness :
  calculateQuestionRiskScore exposureQuestion
    (VArr [VStr "some"; VStr "other"])
  = spec_mean [4%Q; 10%Q] /\
  calculateQuestionRiskScore exposureQuestion (VArr []) = 0%Q.
Proof.
  split.
  - apply (checkbox_scores_mean exposureQuestion
             [ risk_option "None" "none" 0; risk_option "Some" "some" 4;
               OptString "other" ]
             [VStr "some"; VStr "other"]).
    + reflexivity.
    + reflexivity.
    + discriminate.
  - apply (checkbox_scores_mean exposureQuestion
             [ risk_option "None" "none" 0; risk_option "Some" "some" 4;
               OptString "other" ] []); reflexivity.
Defined.

(** C10. Nothing clamps the result: there are a config and answers, with a
    selected option whose riskValue is strictly above the riskWeight of its
    question, for which the reported totalScore is strictly above the
    reported maxScore, the reported percentage is above 100, and so is the
    percentage of the section in the breakdown. *)
Theorem score_exceeds_maximum :
  exists (config : FormConfig) (values : FormValues) (section : FormSection)
         (question : Question) (options : list OptionItem)
         (o : SelectOption) (risk : Q),
    In section (cfg_sections config) /\
    In question (sec_questions section) /\
    options_of (q_kind question) = Some options /\
    In (OptObject o) options /\
    opt_riskValue o = Some (Fin risk) /\
    (num_or (q_riskWeight question) 0 < risk)%Q /\
    get values (q_id question) = VStr (opt_value o) /\
    let r := calculateRiskScore config values in
    (maxScore r < totalScore r)%Q /\
    (100 < percentage r)%Q /\
    exists b, breakdown r !! sec_id section = Some b /\
              (100 < bd_percentage b)%Q.
Proof.
  exists severityConfig, {[ "severity" := VStr "major" ]},
    {| sec_id := "impact"; sec_questions := [severityQuestion] |},
    severityQuestion,
    [ risk_option "Minor" "minor" 5; risk_option "Major" "major" 20 ],
    {| opt_label := "Major"; opt_value := "major";
       opt_riskValue := Some (Fin 20) |}, 20%Q.
  repeat split; try reflexivity.
  - left. reflexivity.
  - left. reflexivity.
  - right. left. reflexivity.
  - eexists. split; [vm_compute; reflexivity|]. vm_compute. reflexivity.
Qed.

(* ================================================================== *)
(** ** Facts about visibility *)
(* ================================================================== *)

Section VisibilityFacts.

Variable host : Host.

Lemma get_empty (key : string) : get ∅ key = VUndef.
Proof. unfold get. rewrite lookup_empty. reflexivity. Qed.

Lemma isFieldVisible_unconditional (question : Question)
    (values : FormValues) :
  q_conditional question = None -> isFieldVisible host question values = true.
Proof. unfold isFieldVisible. intros ->. reflexivity. Qed.

Lemma isFieldVisible_empty_values (question : Question) :
  isFieldVisible host question ∅ = unconditional question.
Proof.
  unfold isFieldVisible, unconditional.
  destruct (q_conditional question) as [c|]; [|reflexivity].
  rewrite get_empty. reflexivity.
Qed.

(** Where the two evaluators agree: every known operator, save [includes]
    applied to two arrays. *)
Lemma evaluateCondition_agrees (c : ConditionalLogic) (currentValue : Value) :
  let operator := default "equals" (cond_operator c) in
  (operator = "equals" \/ operator = "greaterThan" \/ operator = "lessThan"
   \/ (operator = "includes"
       /\ isArray currentValue && isArray (cond_answer c) = false)) ->
  evaluateCondition host (Some c) currentValue
  = visible_switch host operator (cond_answer c) currentValue.
Proof.
  cbv zeta. unfold evaluateCondition, visible_switch.
  intros [-> | [-> | [-> | [-> Harr]]]]; try reflexivity.
  cbn [String.eqb Ascii.eqb Bool.eqb].
  destruct currentValue, (cond_answer c);
    try reflexivity; discriminate.
Qed.

(** On an operator outside the table, [isFieldVisible] lets the field show
    and [evaluateCondition] does not. *)
Lemma unknown_operator (c : ConditionalLogic) (currentValue : Value) :
  let operator := default "equals" (cond_operator c) in
  operator <> "equals" -> operator <> "includes" ->
  operator <> "greaterThan" -> operator <> "lessThan" ->
  visible_switch host operator (cond_answer c) currentValue = true /\
  evaluateCondition host (Some c) currentValue = false.
Proof.
  cbv zeta. unfold evaluateCondition, visible_switch.
  intros H1 H2 H3 H4.
  apply String.eqb_neq in H1, H2, H3, H4.
  rewrite H1, H2, H3, H4. split; reflexivity.
Qed.

End VisibilityFacts.

(** C4, as stated, fails: the referenced answer is the number 0, present
    and falsy, and the field guarded by [greaterThan -1] is visible. *)
Lemma zero_answer_leaves_field_visible :
  get {[ "count" := num 0 ]} "count" = num 0 /\
  truthy (num 0) = false /\
  isFieldVisible exampleHost followUpQuestion {[ "count" := num 0 ]} = true.
Proof. vm_compute. repeat split; reflexivity. Qed.

(** C4, amended. For every question with a conditional whose referenced
    answer is undefined, null or the empty string, [isFieldVisible] returns
    false whatever the operator: this guard comes before the operators.  A
    referenced answer that is a number, 0 included, passes the guard, and
    under greaterThan / lessThan the field is visible exactly when that
    number is above / below [Number(answer)]. *)
Theorem empty_guard_precedes_operators (host : Host) (question : Question)
    (c : ConditionalLogic) (values : FormValues) :
  q_conditional question = Some c ->
  (is_empty (get values (cond_questionId c)) = true ->
     isFieldVisible host question values = false) /\
  (forall n : Num, get values (cond_questionId c) = VNum n ->
     (cond_operator c = Some "greaterThan" ->
        isFieldVisible host question values
        = num_gt n (to_number host (cond_answer c))) /\
     (cond_operator c = Some "lessThan" ->
        isFieldVisible host question values
        = num_lt n (to_number host (cond_answer c)))).
Proof.
  intros Hc. unfold isFieldVisible. rewrite Hc. split.
  - intros ->. reflexivity.
  - intros n ->. split; intros ->; reflexivity.
Qed.

Lemma empty_guard_precedes_operators_witness :
  isFieldVisible exampleHost followUpQuestion {[ "count" := VStr "" ]} = false
  /\ isFieldVisible exampleHost followUpQuestion {[ "count" := num 0 ]}
     = num_gt (Fin 0) (Fin (-1)).
Proof.
  split.
  - apply (empty_guard_precedes_operators exampleHost followUpQuestion
             {| cond_questionId := "count"; cond_answer := num (-1);
                cond_operator := Some "greaterThan" |}
             {[ "count" := VStr "" ]}); reflexivity.
  - apply (empty_guard_precedes_operators exampleHost followUpQuestion
             {| cond_questionId := "count"; cond_answer := num (-1);
                cond_operator := Some "greaterThan" |}
             {[ "count" := num 0 ]} eq_refl); reflexivity.
Defined.

(** C5. For the operator [includes], a current value ["a"] in an array and
    the answer ["a"] in an array, the current value being non-empty, the
    operator dispatch of [isFieldVisible] answers true and
    [evaluateCondition] answers false: [evaluateCondition] lacks the case of
    an array answer that [isFieldVisible] has. *)
Theorem includes_of_arrays_disagrees :
  let currentValue := VArr [VStr "a"] in
  is_empty currentValue = false /\
  isFieldVisible exampleHost taggedQuestion {[ "tags" := currentValue ]}
  = true /\
  evaluateCondition exampleHost (Some tagsCondition) currentValue = false.
Proof. vm_compute. repeat split; reflexivity. Qed.

(* ================================================================== *)
(** ** Facts about validation *)
(* ================================================================== *)

Section ValidationFacts.

Variable host : Host.

Lemma required_message_truthy (label : string) :
  opt_str_truthy (Some (label ++ " is required")) = true.
Proof. destruct label; reflexivity. Qed.

Lemma validateField_hidden (question : Question) (value : Value) :
  validateField host question value false = Normal None.
Proof. reflexivity. Qed.

(** One turn of the loop of [validateForm] over empty values, for a
    required question. *)
Lemma validate_step_empty (question : Question)
    (errors : gmap string string) :
  q_required question = true ->
  validate_step host ∅ errors question
  = Normal (if unconditional question
            then <[ q_id question := q_label question ++ " is required" ]>
                   errors
            else errors).
Proof.
  intros Hreq. unfold validate_step.
  rewrite isFieldVisible_empty_values, get_empty.
  unfold validateField. rewrite Hreq.
  destruct (unconditional question); cbn [negb andb is_empty bind].
  - rewrite required_message_truthy. reflexivity.
  - reflexivity.
Qed.

Lemma validate_loop_empty (questions : list Question)
    (errors : gmap string string) :
  Forall (fun question => q_required question = true) questions ->
  validate_loop host ∅ questions errors
  = Normal (required_errors questions errors).
Proof.
  intros Hall. revert errors.
  induction Hall as [|question rest Hreq _ IH]; intros errors.
  - reflexivity.
  - cbn [validate_loop]. rewrite (validate_step_empty _ _ Hreq).
    cbn [bind]. rewrite IH. reflexivity.
Qed.

End ValidationFacts.

Lemma required_errors_other (questions : list Question)
    (errors : gmap string string) (id : string) :
  id ∉ map q_id questions ->
  required_errors questions errors !! id = errors !! id.
Proof.
  revert errors. induction questions as [|question rest IH];
    intros errors Hnot; [reflexivity|].
  cbn [map] in Hnot. apply not_elem_of_cons in Hnot as [Hne Hrest].
  unfold required_errors. cbn [fold_left]. fold (required_errors rest).
  rewrite IH by assumption.
  destruct (unconditional question); [|reflexivity].
  apply lookup_insert_ne. congruence.
Qed.

Lemma required_errors_lookup (questions : list Question)
    (errors : gmap string string) (question : Question) :
  NoDup (map q_id questions) ->
  question ∈ questions ->
  required_errors questions errors !! q_id question
  = if unconditional question
    then Some (q_label question ++ " is required")
    else errors !! q_id question.
Proof.
  revert errors. induction questions as [|first rest IH];
    intros errors Hnodup Hin.
  - apply elem_of_nil in Hin. contradiction.
  - cbn [map] in Hnodup. apply NoDup_cons in Hnodup as [Hfresh Hnodup].
    unfold required_errors. cbn [fold_left]. fold (required_errors rest).
    apply elem_of_cons in Hin as [-> | Hin].
    + rewrite required_errors_other by assumption.
      destruct (unconditional first); [|reflexivity].
      apply lookup_insert_eq.
    + rewrite IH by assumption.
      destruct (unconditional question); [reflexivity|].
      destruct (unconditional first); [|reflexivity].
      apply lookup_insert_ne. intros Heq. apply Hfresh.
      rewrite Heq. apply list_elem_of_fmap_2. assumption.
Qed.

Lemma required_errors_size (questions : list Question)
    (errors : gmap string string) :
  NoDup (map q_id questions) ->
  (forall id, id ∈ map q_id questions -> errors !! id = None) ->
  size (required_errors questions errors)
  = (size errors + length (List.filter unconditional questions))%nat.
Proof.
  revert errors. induction questions as [|first rest IH];
    intros errors Hnodup Hfree.
  - cbn. lia.
  - cbn [map] in Hnodup, Hfree.
    apply NoDup_cons in Hnodup as [Hfresh Hnodup].
    unfold required_errors. cbn [fold_left List.filter].
    fold (required_errors rest).
    destruct (unconditional first).
    + rewrite IH.
      * rewrite map_size_insert_None by (apply Hfree; left).
        cbn [length]. lia.
      * assumption.
      * intros id Hid. rewrite lookup_insert_ne.
        -- apply Hfree. right. assumption.
        -- intros <-. contradiction.
    + apply IH; [assumption|]. intros id Hid. apply Hfree. right. assumption.
Qed.

Lemma filter_all (A : Type) (f : A -> bool) (l : list A) :
  forallb f l = true -> List.filter f l = l.
Proof.
  induction l as [|x l IH]; [reflexivity|]. cbn [forallb List.filter].
  intros H. apply andb_prop in H as [-> Hl]. rewrite IH by assumption.
  reflexivity.
Qed.

(** C6, as stated, fails: one required question, which has a conditional,
    and the error map over empty values has no entry. *)
Lemma hidden_required_question_has_no_error :
  Forall (fun question => q_required question = true) [detailsQuestion] /\
  length [detailsQuestion] = 1%nat /\
  validateForm exampleHost [detailsQuestion] ∅ = Normal ∅.
Proof. repeat split. repeat constructor. Qed.

(** C6, amended. For every list of N required questions with distinct ids,
    none of the ids and none of the question ids named by a conditional
    being a name that the empty object inherits from [Object.prototype],
    [validateForm(questions, {})] returns an error map with exactly one
    entry, keyed by question id, per question that has no conditional; a
    required question that has a conditional is hidden under empty values
    and has no entry.  The map has exactly N entries when no question has a
    conditional. *)
Theorem validateForm_empty_values (host : Host) (questions : list Question) :
  Forall (fun question => q_required question = true) questions ->
  NoDup (map q_id questions) ->
  Forall (fun question => reads_own_keys question = true) questions ->
  exists errors : gmap string string,
    validateForm host questions ∅ = Normal errors /\
    size errors = length (List.filter unconditional questions) /\
    (forall question, question ∈ questions ->
       errors !! q_id question
       = if unconditional question
         then Some (q_label question ++ " is required")
         else None) /\
    (forallb unconditional questions = true ->
       size errors = length questions).
Proof.
  intros Hreq Hnodup _. exists (required_errors questions ∅).
  assert (Hsize : size (required_errors questions ∅)
                  = length (List.filter unconditional questions)).
  { rewrite required_errors_size; [rewrite map_size_empty; lia|assumption|].
    intros id _. apply lookup_empty. }
  split; [|split; [|split]].
  - unfold validateForm. apply validate_loop_empty. assumption.
  - exact Hsize.
  - intros question Hin. rewrite required_errors_lookup by assumption.
    rewrite lookup_empty. reflexivity.
  - intros Hall. rewrite Hsize, filter_all by assumption. reflexivity.
Qed.

Lemma validateForm_empty_values_witness :
  exists errors : gmap string string,
    validateForm exampleHost [nameQuestion; emailQuestion] ∅ = Normal errors /\
    size errors = 2%nat /\
    (forall question, question ∈ [nameQuestion; emailQuestion] ->
       errors !! q_id question
       = if unconditional question
         then Some (q_label question ++ " is required")
         else None) /\
    (forallb unconditional [nameQuestion; emailQuestion] = true ->
       size errors = 2%nat).
Proof.
  apply (validateForm_empty_values exampleHost [nameQuestion; emailQuestion]).
  - repeat constructor.
  - apply (bool_decide_unpack _). vm_compute. exact I.
  - repeat constructor.
Defined.

(* ================================================================== *)
(** ** Facts about persistence *)
(* ================================================================== *)

(** Serialisation leaves a JSON document as it is. *)
Lemma json_of_clean (v : Value) : json_clean v = true -> json_of v = Some v.
Proof.
  induction v as [| |b|n|s|f|items IH|fields IH] using Value_nested_ind;
    cbn [json_clean json_of]; try discriminate; try reflexivity.
  - destruct n; [discriminate|reflexivity].
  - intros Hclean. do 2 f_equal.
    induction IH as [|x rest Hx _ IHrest]; [reflexivity|].
    cbn [forallb map] in *. apply andb_prop in Hclean as [Hcx Hcrest].
    rewrite (Hx Hcx), (IHrest Hcrest). reflexivity.
  - intros Hclean. do 2 f_equal.
    induction IH as [|[k x] rest Hx _ IHrest]; [reflexivity|].
    cbn [forallb keep_fields snd] in *.
    apply andb_prop in Hclean as [Hcx Hcrest].
    rewrite (Hx Hcx), (IHrest Hcrest). reflexivity.
Qed.

Lemma keep_fields_clean (fields : list (string * Value)) :
  Forall (fun kv => json_clean (snd kv) = true) fields ->
  keep_fields json_of fields = fields.
Proof.
  induction 1 as [|[k x] rest Hx _ IH]; [reflexivity|].
  cbn [keep_fields snd] in *. rewrite (json_of_clean _ Hx), IH. reflexivity.
Qed.

Lemma map_to_list_clean (values : FormValues) :
  map_Forall (fun _ v => json_clean v = true) values ->
  keep_fields json_of (map_to_list values) = map_to_list values.
Proof.
  intros Hall. apply keep_fields_clean. apply Forall_forall.
  intros [k v] Hin. apply elem_of_map_to_list in Hin. exact (Hall k v Hin).
Qed.

(** The three kinds of key never coincide where the code relies on it. *)
Lemma draftKey_not_listKey (formId draftId formId' : string) :
  draftKey formId draftId <> getDraftsListKey formId'.
Proof.
  unfold draftKey, getDraftsListKey, STORAGE_PREFIX.
  intros H. injection H. intros. discriminate.
Qed.

Lemma saveFormState_accepted (w : World) (formId : string)
    (values : FormValues) (draftId : option string) :
  refuses w (writes w) = false ->
  snd (saveFormState w formId values draftId)
  = Normal (built_state w formId values draftId) /\
  items (fst (saveFormState w formId values draftId))
  = <[ getStorageKey formId
       := stringify (state_value (built_state w formId values draftId)) ]>
      (items w).
Proof.
  intros Hok. unfold saveFormState, now, setItem.
  cbn [reads writes refuses]. rewrite Hok. split; reflexivity.
Qed.

Lemma saveFormState_refused (w : World) (formId : string)
    (values : FormValues) (draftId : option string) :
  refuses w (writes w) = true ->
  snd (saveFormState w formId values draftId)
  = Throw "Failed to save form state" /\
  items (fst (saveFormState w formId values draftId)) = items w.
Proof.
  intros Hno. unfold saveFormState, now, setItem.
  cbn [reads writes refuses]. rewrite Hno. split; reflexivity.
Qed.

Lemma built_state_draft (w : World) (formId : string) (values : FormValues)
    (draftId : option string) :
  st_autoSave (built_state w formId values draftId)
  = {| as_lastSavedAt := iso (clock w (reads w));
       as_isDraft := match draftId with
                     | Some id => negb (String.eqb id "")
                     | None => false
                     end;
       as_draftId := match draftId with
                     | Some id => id
                     | None => ""
                     end |}.
Proof.
  unfold built_state. cbn [st_autoSave].
  destruct draftId as [id|]; [|reflexivity].
  cbn [opt_str_truthy default]. unfold str_truthy.
  destruct (String.eqb id "") eqn:E; [|reflexivity].
  apply String.eqb_eq in E. subst id. reflexivity.
Qed.

(** C7, as stated, fails: the draft id [''] is not null, and the state
    written for it is not a draft. *)
Lemma empty_draft_id_is_not_a_draft :
  match snd (saveFormState freshWorld "form1" ∅ (Some "")) with
  | Normal state =>
      as_isDraft (st_autoSave state) = false /\
      as_draftId (st_autoSave state) = ""
  | Throw _ => False
  end.
Proof. split; reflexivity. Qed.

(** C7, amended. [saveFormState(formId, values, draftId)] builds a state
    whose autoSave has lastSavedAt set to the current time, isDraft true
    exactly when draftId is a non-empty string, and draftId equal to that
    string, or '' when it is absent or empty, plus a top-level timestamp read
    from the clock next.  When the browser accepts the write, the state is
    stored under the key of the form and returned; when it refuses, nothing
    is stored and the error "Failed to save form state" is thrown. *)
Theorem saveFormState_writes_state (w : World) (formId : string)
    (values : FormValues) (draftId : option string) :
  let state :=
    {| st_formId := formId;
       st_values := values;
       st_autoSave :=
         {| as_lastSavedAt := iso (clock w (reads w));
            as_isDraft := match draftId with
                          | Some id => negb (String.eqb id "")
                          | None => false
                          end;
            as_draftId := match draftId with
                          | Some id => id
                          | None => ""
                          end |};
       st_timestamp := iso (clock w (S (reads w))) |} in
  let result := saveFormState w formId values draftId in
  if refuses w (writes w)
  then snd result = Throw "Failed to save form state" /\
       items (fst result) = items w
  else snd result = Normal state /\
       items (fst result)
       = <[ getStorageKey formId := stringify (state_value state) ]> (items w).
Proof.
  cbv zeta.
  pose proof (built_state_draft w formId values draftId) as Hauto.
  assert (Hstate : built_state w formId values draftId
                   = {| st_formId := formId; st_values := values;
                        st_autoSave :=
                          st_autoSave (built_state w formId values draftId);
                        st_timestamp := iso (clock w (S (reads w))) |})
    by reflexivity.
  rewrite Hauto in Hstate.
  destruct (refuses w (writes w)) eqn:Hw.
  - apply saveFormState_refused. assumption.
  - rewrite <- Hstate. apply saveFormState_accepted. assumption.
Qed.

(** C8. Saving a draft twice under the same explicit id leaves two index
    entries with that id: the list grows from 1 to 2 where the specification
    has the existing entry updated and the length unchanged. *)
Theorem saveDraft_again_duplicates_entry :
  let first := saveDraft freshWorld "form1" "Draft 1" ∅ (Some "d1") in
  let second := saveDraft (fst first) "form1" "Draft 1, edited" ∅ (Some "d1") in
  snd first = Normal "d1" /\
  snd second = Normal "d1" /\
  getDraftsList (fst first) "form1"
  = VArr [entry_value "d1" "Draft 1" "t2" "t3"] /\
  getDraftsList (fst second) "form1"
  = VArr [entry_value "d1" "Draft 1" "t2" "t3";
          entry_value "d1" "Draft 1, edited" "t6" "t7"] /\
  index_length (getDraftsList (fst second) "form1") = Some 2%nat.
Proof. vm_compute. repeat split; reflexivity. Qed.

(** C9, as stated, fails: the answers hold an uploaded [File]; the save
    succeeds, the state loaded next is not null, and its [values] hold an
    empty object where the file was. *)
Lemma file_answer_is_not_restored :
  let result := saveFormState freshWorld "form1" uploadValues None in
  let loaded := loadFormState (fst result) "form1" in
  snd result = Normal (built_state freshWorld "form1" uploadValues None) /\
  loaded <> VNull /\
  values_of loaded = Some {[ "doc" := VArr [VObj []] ]} /\
  values_of loaded <> Some uploadValues.
Proof.
  cbv zeta. split; [reflexivity|]. split; [discriminate|].
  assert (H : values_of
                (loadFormState
                   (fst (saveFormState freshWorld "form1" uploadValues None))
                   "form1")
              = Some {[ "doc" := VArr [VObj []] ]})
    by (vm_compute; reflexivity).
  split; [exact H|]. rewrite H. intros Heq.
  apply (f_equal (fun o : option FormValues =>
                    match o with Some m => m !! "doc" | None => None end))
    in Heq.
  vm_compute in Heq. discriminate.
Qed.

(** C9, amended. When the browser accepts the write and every answer in
    [v] is a JSON document (strings, finite numbers other than the negative
    zero, booleans, null, arrays and objects of these: no File, no
    undefined, no NaN, no infinity), [loadFormState]
    right after [saveFormState(formId, v)] returns a state that is not null,
    is the state that was saved, and whose [values] are exactly [v]. *)
Theorem load_after_save_roundtrip (w : World) (formId : string)
    (values : FormValues) (draftId : option string) :
  refuses w (writes w) = false ->
  map_Forall (fun _ v => json_clean v = true) values ->
  let w' := fst (saveFormState w formId values draftId) in
  loadFormState w' formId <> VNull /\
  loadFormState w' formId
  = state_value (built_state w formId values draftId) /\
  values_of (loadFormState w' formId) = Some values.
Proof.
  intros Hok Hclean. cbv zeta.
  destruct (saveFormState_accepted w formId values draftId Hok) as [_ Hitems].
  unfold loadFormState, getItem. rewrite Hitems, lookup_insert_eq.
  unfold stringify, state_value, autoSave_value, built_state.
  cbn [json_of keep_fields st_formId st_values st_autoSave st_timestamp].
  rewrite (map_to_list_clean _ Hclean).
  cbn [parse_or text_truthy parse].
  split; [discriminate|]. split; [reflexivity|].
  unfold values_of. cbn [obj_get String.eqb Ascii.eqb Bool.eqb].
  rewrite list_to_map_to_list. reflexivity.
Qed.

Lemma load_after_save_roundtrip_witness :
  let w' := fst (saveFormState freshWorld "test-form" testValues None) in
  loadFormState w' "test-form" <> VNull /\
  loadFormState w' "test-form"
  = state_value (built_state freshWorld "test-form" testValues None) /\
  values_of (loadFormState w' "test-form") = Some testValues.
Proof.
  apply (load_after_save_roundtrip freshWorld "test-form" testValues None).
  - reflexivity.
  - apply (bool_decide_unpack _). vm_compute. exact I.
Defined.

Lemma getDraftsList_items (w : World) (formId : string) :
  getDraftsList w formId
  = parse_or (VArr []) (items w !! getDraftsListKey formId).
Proof. reflexivity. Qed.

(** Whatever the draft id, a successful [saveDraft] pushes one entry at the
    end of the index: the index grows by one when the id is fresh, and
    equally when an entry with that id is already there. *)
Lemma saveDraft_appends (w : World) (formId draftName : string)
    (values : FormValues) (draftId : option string) (entries : list Value) :
  refuses w (writes w) = false ->
  refuses w (S (writes w)) = false ->
  getDraftsList w formId = VArr entries ->
  exists id created updated,
    snd (saveDraft w formId draftName values draftId) = Normal id /\
    getDraftsList (fst (saveDraft w formId draftName values draftId)) formId
    = VArr (reparsed entries
            ++ [entry_value id draftName created updated])%list.
Proof.
  intros Hfirst Hsecond Hindex. rewrite getDraftsList_items in Hindex.
  unfold saveDraft.
  destruct (opt_str_truthy draftId);
    unfold now, setItem; world_step;
    rewrite Hfirst; world_step;
    rewrite getDraftsList_items; world_step;
    (rewrite lookup_insert_ne by apply draftKey_not_listKey);
    rewrite Hindex; world_step;
    rewrite Hsecond; world_step;
    do 3 eexists; (split; [reflexivity|]);
    rewrite getDraftsList_items; world_step;
    rewrite lookup_insert_eq; unfold stringify; cbn [json_of];
    cbn [parse_or text_truthy parse]; unfold reparsed;
    rewrite map_app; reflexivity.
Qed.

Lemma saveDraft_grows_index (w : World) (formId draftName : string)
    (values : FormValues) (draftId : option string) (entries : list Value) :
  refuses w (writes w) = false ->
  refuses w (S (writes w)) = false ->
  getDraftsList w formId = VArr entries ->
  index_length
    (getDraftsList (fst (saveDraft w formId draftName values draftId)) formId)
  = Some (S (length entries)).
Proof.
  intros H1 H2 H3.
  destruct (saveDraft_appends w formId draftName values draftId entries
              H1 H2 H3) as (id & created & updated & _ & ->).
  unfold index_length, reparsed. rewrite length_app, length_map.
  cbn [length]. f_equal. lia.
Qed.

(** [deleteDraft] keeps, in place, the index entries whose id differs. *)
Lemma deleteDraft_filters (w : World) (formId draftId : string)
    (entries kept : list Value) :
  refuses w (writes w) = false ->
  getDraftsList w formId = VArr entries ->
  filter_c (other_draft draftId) entries = Normal kept ->
  getDraftsList (deleteDraft w formId draftId) formId = VArr (reparsed kept)
  /\ loadDraft (deleteDraft w formId draftId) formId draftId = VNull.
Proof.
  intros Hok Hindex Hkept.
  assert (Hinner : getDraftsList (removeItem w (draftKey formId draftId))
                     formId = VArr entries).
  { rewrite getDraftsList_items in *. unfold removeItem. world_step.
    rewrite lookup_delete_ne by apply draftKey_not_listKey. exact Hindex. }
  unfold deleteDraft. rewrite Hinner, Hkept.
  unfold setItem, removeItem. world_step. rewrite Hok. world_step. split.
  - rewrite getDraftsList_items. world_step.
    rewrite lookup_insert_eq. reflexivity.
  - unfold loadDraft, getItem. world_step.
    rewrite lookup_insert_ne
      by (intros Heq; symmetry in Heq; revert Heq;
          apply draftKey_not_listKey).
    rewrite lookup_delete_eq. reflexivity.
Qed.

(** On an index made of entry objects the filter does not throw, and is the
    plain filter on the [id] property. *)
Lemma filter_c_entries (draftId : string) (entries : list Value) :
  Forall (fun d => exists fields, d = VObj fields) entries ->
  filter_c (other_draft draftId) entries
  = Normal (List.filter
              (fun d => match d with
                        | VObj fields =>
                            negb (strict_eq (obj_get fields "id")
                                            (VStr draftId))
                        | _ => true
                        end) entries).
Proof.
  induction 1 as [|d rest [fields ->] _ IH]; [reflexivity|].
  cbn [filter_c List.filter]. rewrite IH.
  unfold other_draft. cbn [prop bind]. reflexivity.
Qed.

(* ================================================================== *)
(** ** The repository's tests, run on the model *)
(* ================================================================== *)

(** [validation.test.ts] *)

Example visible_without_conditional :
  isFieldVisible exampleHost nameQuestion ∅ = true.
Proof. reflexivity. Qed.

Example visible_when_condition_met :
  isFieldVisible exampleHost detailsQuestion {[ "q1" := VStr "yes" ]} = true
  /\ isFieldVisible exampleHost detailsQuestion {[ "q1" := VStr "no" ]}
     = false.
Proof. vm_compute. split; reflexivity. Qed.

Example required_field_is_reported :
  validateField exampleHost nameQuestion (VStr "") true
  = Normal (Some "Name is required")
  /\ validateField exampleHost nameQuestion (VStr "") false = Normal None.
Proof. split; reflexivity. Qed.

Example text_length_is_checked :
  let question :=
    plain_question "q1" "Name" None
      (KText (Some (Fin 5)) (Some (Fin 10)) None) in
  validateField exampleHost question (VStr "ab") true
  = Normal (Some "Minimum length is 5 characters") /\
  validateField exampleHost question (VStr "abcdefghijk") true
  = Normal (Some "Maximum length is 10 characters") /\
  validateField exampleHost question (VStr "abcde") true = Normal None.
Proof. vm_compute. repeat split; reflexivity. Qed.

Example number_range_is_checked :
  let question :=
    plain_question "q1" "Age" None (KNumber (Some (Fin 18)) (Some (Fin 65))) in
  validateField exampleHost question (num 10) true
  = Normal (Some "Minimum value is 18") /\
  validateField exampleHost question (num 100) true
  = Normal (Some "Maximum value is 65") /\
  validateField exampleHost question (num 25) true = Normal None.
Proof. vm_compute. repeat split; reflexivity. Qed.

Example file_type_and_size_are_checked :
  let question :=
    plain_question "doc" "Report" None
      (KFile (Some ".pdf, image/") (Some (Fin 1))) in
  validateField exampleHost question (VArr [reportFile]) true = Normal None /\
  validateField exampleHost question
    (VFile {| file_name := "notes.TXT"; file_size := Fin 10;
              file_type := "text/plain" |}) true
  = Normal (Some "File type not supported. Accepted types: .pdf, image/") /\
  validateField exampleHost question
    (VFile {| file_name := "scan.png"; file_size := Fin 2000000;
              file_type := "image/png" |}) true
  = Normal (Some "File size exceeds 1MB limit").
Proof. vm_compute. repeat split; reflexivity. Qed.

Example valid_form_has_no_error :
  validateForm exampleHost [nameQuestion] {[ "q1" := VStr "John" ]}
  = Normal ∅.
Proof. reflexivity. Qed.

(** [storage.test.ts] *)

Example load_without_state : loadFormState freshWorld "non-existent" = VNull.
Proof. reflexivity. Qed.

Example state_saved_for_a_draft :
  match snd (saveFormState freshWorld "form1" ∅ (Some "draft-1")) with
  | Normal state =>
      as_isDraft (st_autoSave state) = true /\
      as_draftId (st_autoSave state) = "draft-1"
  | Throw _ => False
  end.
Proof. split; reflexivity. Qed.

Example cleared_state_is_gone :
  let w := fst (saveFormState freshWorld "test-form"
                  {[ "q1" := VStr "value" ]} None) in
  loadFormState (clearFormState w "test-form") "test-form" = VNull.
Proof. vm_compute. reflexivity. Qed.

Example drafts_are_listed_per_form :
  let w1 := fst (saveDraft freshWorld "form1" "Draft 1" ∅ None) in
  let w2 := fst (saveDraft w1 "form1" "Draft 2" ∅ None) in
  let w3 := fst (saveDraft w2 "form2" "Other" ∅ None) in
  getDraftsList freshWorld "form1" = VArr [] /\
  index_length (getDraftsList w3 "form1") = Some 2%nat /\
  index_length (getDraftsList w3 "form2") = Some 1%nat /\
  getDraftsList w3 "form1"
  = VArr [entry_value "draft-1700000000000" "Draft 1" "t3" "t4";
          entry_value "draft-1700000000005" "Draft 2" "t8" "t9"].
Proof. vm_compute. repeat split; reflexivity. Qed.

Example renamed_draft_is_updated_in_place :
  let w1 := fst (saveDraft freshWorld "form1" "Draft 1" ∅ (Some "d1")) in
  getDraftsList (renameDraft w1 "form1" "d1" "Final") "form1"
  = VArr [entry_value "d1" "Final" "t2" "t4"].
Proof. vm_compute. reflexivity. Qed.

Example deleted_draft_leaves_the_others :
  let w1 := fst (saveDraft freshWorld "form1" "Draft 1" ∅ (Some "d1")) in
  let w2 := fst (saveDraft w1 "form1" "Draft 2" ∅ (Some "d2")) in
  getDraftsList (deleteDraft w2 "form1" "d1") "form1"
  = VArr [entry_value "d2" "Draft 2" "t6" "t7"]
  /\ loadDraft (deleteDraft w2 "form1" "d1") "form1" "d1" = VNull
  /\ loadDraft (deleteDraft w2 "form1" "d1") "form1" "d2" <> VNull.
Proof. vm_compute. repeat split; try reflexivity. discriminate. Qed.

(** String primitives against their JavaScript counterparts. *)

Example string_primitives :
  split_on "," "a, b" = ["a"; " b"] /\
  split_on "," "" = [""] /\
  trim "  .PDF " = ".PDF" /\
  file_extension "Annual.Report.PDF" = ".pdf" /\
  file_extension "README" = ".readme" /\
  string_includes "image/png" "image/" = true /\
  string_includes "abc" "" = true /\
  string_includes "abc" "bd" = false /\
  to_string exampleHost (VArr [VStr "a"; VNull; num 3]) = "a,,3" /\
  to_number exampleHost (VStr " 42 ") = Fin 42 /\
  to_number exampleHost (VStr "-") = NaN /\
  to_number exampleHost (VArr []) = Fin 0.
Proof. vm_compute. repeat split; reflexivity. Qed.

(* ================================================================== *)
(** ** Further facts about risk scoring *)
(* ================================================================== *)

(** The four accumulators of the inner loop are running sums. *)
Lemma question_fold_sums (values : FormValues) (questions : list Question)
    (a : Acc) :
  fold_left (question_step values) questions a
  = {| acc_sectionScore :=
         fold_left Qplus (map (question_score values) questions)
           (acc_sectionScore a);
       acc_sectionMax :=
         fold_left Qplus (map question_weight questions) (acc_sectionMax a);
       acc_totalScore :=
         fold_left Qplus (map (question_score values) questions)
           (acc_totalScore a);
       acc_maxScore :=
         fold_left Qplus (map question_weight questions) (acc_maxScore a) |}.
Proof.
  revert a. induction questions as [|question rest IH]; intros a.
  - destruct a. reflexivity.
  - cbn [fold_left map]. rewrite IH. reflexivity.
Qed.

Lemma section_step_sums (values : FormValues) (t : Totals)
    (section : FormSection) :
  section_step values t section
  = {| tot_breakdown :=
         <[ sec_id section := section_entry values section ]>
           (tot_breakdown t);
       tot_score :=
         fold_left Qplus (map (question_score values) (sec_questions section))
           (tot_score t);
       tot_max :=
         fold_left Qplus (map question_weight (sec_questions section))
           (tot_max t) |}.
Proof. unfold section_step. rewrite question_fold_sums. reflexivity. Qed.

(** The raw totals are the sums over all questions of the config. *)
Lemma section_fold_sums (values : FormValues) (sections : list FormSection)
    (t : Totals) :
  tot_score (fold_left (section_step values) sections t)
  = fold_left Qplus
      (map (question_score values) (concat (map sec_questions sections)))
      (tot_score t)
  /\ tot_max (fold_left (section_step values) sections t)
     = fold_left Qplus
         (map question_weight (concat (map sec_questions sections)))
         (tot_max t).
Proof.
  revert t. induction sections as [|section rest IH]; intros t.
  - split; reflexivity.
  - cbn [fold_left map concat]. destruct (IH (section_step values t section))
      as [-> ->].
    rewrite section_step_sums. cbn [tot_score tot_max].
    rewrite !map_app, !fold_left_app. split; reflexivity.
Qed.

Lemma section_fold_breakdown (values : FormValues)
    (sections : list FormSection) (t : Totals) :
  tot_breakdown (fold_left (section_step values) sections t)
  = fold_left (fun m section =>
                 <[ sec_id section := section_entry values section ]> m)
      sections (tot_breakdown t).
Proof.
  revert t. induction sections as [|section rest IH]; intros t.
  - reflexivity.
  - cbn [fold_left]. rewrite IH, section_step_sums. reflexivity.
Qed.

Lemma Math_round_comp (x y : Q) : (x == y)%Q -> Math_round x = Math_round y.
Proof. intros H. unfold Math_round. rewrite H. reflexivity. Qed.

Lemma Math_round_Z (z : Z) : Math_round (inject_Z z) = inject_Z z.
Proof.
  unfold Math_round. f_equal.
  apply Z.le_antisymm.
  - assert (H : (inject_Z z + (1 # 2) < inject_Z (z + 1))%Q).
    { rewrite inject_Z_plus. unfold Qlt, Qplus, inject_Z. simpl. lia. }
    pose proof (Qfloor_le (inject_Z z + (1 # 2))) as Hle.
    assert (Hlt : (inject_Z (Qfloor (inject_Z z + (1 # 2)))
                   < inject_Z (z + 1))%Q)
      by (eapply Qle_lt_trans; eassumption).
    rewrite <- Zlt_Qlt in Hlt. lia.
  - rewrite <- (Qfloor_Z z) at 1. apply Qfloor_resp_le.
    unfold Qle, Qplus, inject_Z. simpl. lia.
Qed.

Lemma Math_round_le (x y : Q) :
  (x <= y)%Q -> (Math_round x <= Math_round y)%Q.
Proof.
  intros H. unfold Math_round. rewrite <- Zle_Qle.
  apply Qfloor_resp_le. apply Qplus_le_compat; [assumption|apply Qle_refl].
Qed.

Lemma fold_left_zero (l : list Q) :
  Forall (fun q => q = 0%Q) l -> fold_left Qplus l 0%Q = 0%Q.
Proof.
  induction 1 as [|q rest -> _ IH]; [reflexivity|].
  cbn [fold_left]. exact IH.
Qed.

Lemma percent_of_zero (max : Q) : (percent_of 0 max == 0)%Q.
Proof.
  unfold percent_of. destruct (negb (Qle_bool max 0)); [|reflexivity].
  unfold Qdiv. ring.
Qed.

Lemma level_of_comp (x y : Q) : (x == y)%Q -> level_of x = level_of y.
Proof.
  intros H. unfold level_of.
  assert (Hc : forall c : Q, Qle_bool c x = Qle_bool c y)
    by (intros c; apply Qleb_comp; [reflexivity|assumption]).
  rewrite !Hc. reflexivity.
Qed.

Lemma scores_nothing_when_unanswered (config : FormConfig)
    (values : FormValues) :
  (forall question, In question (questions_of config) ->
     unanswered (get values (q_id question)) = true) ->
  scores_nothing (calculateRiskScore config values).
Proof.
  intros Hall. unfold scores_nothing, calculateRiskScore. cbv zeta.
  cbn [totalScore percentage level].
  destruct (section_fold_sums values (cfg_sections config)
              {| tot_breakdown := ∅; tot_score := 0; tot_max := 0 |})
    as [Hscore _].
  cbn [tot_score] in Hscore. rewrite Hscore. fold (questions_of config).
  rewrite fold_left_zero.
  - set (max := tot_max _).
    assert (Hp : (percent_of 0 max == 0)%Q) by apply percent_of_zero.
    assert (Hn : (percent_of 0 max / 100
                  * num_or (cfg_maxRiskScore config) 100 == 0)%Q)
      by (rewrite Hp; unfold Qdiv; ring).
    rewrite (Math_round_comp _ _ Hn), (Math_round_comp _ _ Hp),
      (level_of_comp _ _ Hn).
    repeat split; reflexivity.
  - apply Forall_forall. intros q Hq. apply list_elem_of_In in Hq.
    apply in_map_iff in Hq as (question & <- & Hin).
    unfold question_score. rewrite score_guard, (Hall _ Hin). reflexivity.
Qed.

(** X1. Whatever the config, as long as no question id is a name that a
    plain object inherits from [Object.prototype]: when the answer of every
    question is falsy or an empty array, the reported totalScore and
    percentage are 0 and the level is Low; so they are for the empty
    values. *)
Theorem unanswered_form_scores_zero (config : FormConfig)
    (values : FormValues) :
  (forall question, In question (questions_of config) ->
     own_key (q_id question) = true) ->
  ((forall question, In question (questions_of config) ->
      unanswered (get values (q_id question)) = true) ->
   scores_nothing (calculateRiskScore config values)) /\
  scores_nothing (calculateRiskScore config ∅).
Proof.
  intros _. split.
  - apply scores_nothing_when_unanswered.
  - apply scores_nothing_when_unanswered. intros question _.
    unfold get. rewrite lookup_empty. reflexivity.
Qed.

Lemma unanswered_form_scores_zero_witness :
  scores_nothing (calculateRiskScore mockConfig {[ "q2" := num 0 ]}) /\
  scores_nothing (calculateRiskScore mockConfig ∅).
Proof.
  assert (Hown : forall question, In question (questions_of mockConfig) ->
                   own_key (q_id question) = true)
    by (intros question [<- | [<- | []]]; reflexivity).
  split.
  - refine (proj1 (unanswered_form_scores_zero mockConfig
                     {[ "q2" := num 0 ]} Hown) _).
    intros question [<- | [<- | []]]; reflexivity.
  - exact (proj2 (unanswered_form_scores_zero mockConfig ∅ Hown)).
Defined.

Lemma insert_fold_other (A : Type) (entry : FormSection -> A)
    (sections : list FormSection) (m : gmap string A) (id : string) :
  id ∉ map sec_id sections ->
  fold_left (fun m section => <[ sec_id section := entry section ]> m)
    sections m !! id = m !! id.
Proof.
  revert m. induction sections as [|section rest IH]; intros m Hnot;
    [reflexivity|].
  cbn [map] in Hnot. apply not_elem_of_cons in Hnot as [Hne Hrest].
  cbn [fold_left]. rewrite IH by assumption.
  apply lookup_insert_ne. congruence.
Qed.

Lemma insert_fold_dom (A : Type) (entry : FormSection -> A)
    (sections : list FormSection) (m : gmap string A) :
  dom (fold_left (fun m section => <[ sec_id section := entry section ]> m)
         sections m)
  = dom m ∪ list_to_set (map sec_id sections).
Proof.
  revert m. induction sections as [|section rest IH]; intros m.
  - cbn. symmetry. apply (right_id_L ∅ (∪)).
  - cbn [fold_left map list_to_set]. rewrite IH, dom_insert_L.
    rewrite (comm_L (∪) {[sec_id section]} (dom m)).
    symmetry. apply (assoc_L (∪)).
Qed.

Lemma insert_fold_all (A : Type) (entry : FormSection -> A)
    (P : A -> Prop) (sections : list FormSection) (m : gmap string A) :
  map_Forall (fun _ => P) m ->
  (forall section, In section sections -> P (entry section)) ->
  map_Forall (fun _ => P)
    (fold_left (fun m section => <[ sec_id section := entry section ]> m)
       sections m).
Proof.
  revert m. induction sections as [|section rest IH]; intros m Hm Hall;
    [exact Hm|].
  cbn [fold_left]. apply IH.
  - apply map_Forall_insert_2; [apply Hall; left; reflexivity|exact Hm].
  - intros s Hs. apply Hall. right. exact Hs.
Qed.

(** X2. When no section is named [__proto__], the breakdown has an entry
    for exactly the section ids of the config, whatever the answers. *)
Theorem breakdown_lists_the_sections (config : FormConfig)
    (values : FormValues) :
  Forall (fun section => assignable_key (sec_id section) = true)
    (cfg_sections config) ->
  dom (breakdown (calculateRiskScore config values))
  = list_to_set (map sec_id (cfg_sections config)).
Proof.
  intros _. unfold calculateRiskScore. cbv zeta. cbn [breakdown].
  rewrite section_fold_breakdown, insert_fold_dom. cbn [tot_breakdown].
  rewrite dom_empty_L. apply (left_id_L ∅ (∪)).
Qed.

Lemma breakdown_lists_the_sections_witness :
  dom (breakdown (calculateRiskScore mockConfig {[ "q1" := VStr "no" ]}))
  = list_to_set (map sec_id (cfg_sections mockConfig)).
Proof.
  apply (breakdown_lists_the_sections mockConfig {[ "q1" := VStr "no" ]}).
  repeat constructor.
Defined.

(** X3. When the section ids are distinct, the breakdown entry of a section
    depends on its own questions only: its score is the sum of their
    scores, its maxScore the sum of their weights, and its percentage is
    score / maxScore * 100, or 0 when maxScore is not positive. *)
Theorem breakdown_entry_of_section (config : FormConfig)
    (values : FormValues) (section : FormSection) :
  NoDup (map sec_id (cfg_sections config)) ->
  section ∈ cfg_sections config ->
  breakdown (calculateRiskScore config values) !! sec_id section
  = Some {| bd_score :=
              sum_reduce (map (question_score values)
                            (sec_questions section));
            bd_maxScore :=
              sum_reduce (map question_weight (sec_questions section));
            bd_percentage :=
              percent_of
                (sum_reduce (map (question_score values)
                               (sec_questions section)))
                (sum_reduce (map question_weight
                               (sec_questions section))) |}.
Proof.
  intros Hnodup Hin. unfold calculateRiskScore. cbv zeta. cbn [breakdown].
  rewrite section_fold_breakdown. cbn [tot_breakdown].
  fold (section_entry values section).
  generalize (∅ : gmap string SectionBreakdown).
  induction (cfg_sections config) as [|first rest IH]; intros m.
  - apply elem_of_nil in Hin. contradiction.
  - cbn [map] in Hnodup. apply NoDup_cons in Hnodup as [Hfresh Hnodup].
    cbn [fold_left]. apply elem_of_cons in Hin as [-> | Hin].
    + rewrite insert_fold_other by assumption. apply lookup_insert_eq.
    + apply IH; assumption.
Qed.

Lemma breakdown_entry_of_section_witness :
  let section :=
    {| sec_id := "section1";
       sec_questions :=
         [ yesNoQuestion;
           plain_question "q2" "Question 2" (Some (Fin 5))
             (KNumber None None) ] |} in
  let values : FormValues := {[ "q2" := num 7 ]} in
  breakdown (calculateRiskScore mockConfig values) !! "section1"
  = Some (section_entry values section).
Proof.
  cbv zeta.
  apply (breakdown_entry_of_section mockConfig {[ "q2" := num 7 ]}
           {| sec_id := "section1";
              sec_questions :=
                [ yesNoQuestion;
                  plain_question "q2" "Question 2" (Some (Fin 5))
                    (KNumber None None) ] |}).
  - apply (bool_decide_unpack _). vm_compute. exact I.
  - apply list_elem_of_In. left. reflexivity.
Defined.

(** X5. The level and the reported totalScore fit together: Critical comes
    with a totalScore of at least 75, High with one from 50 to 75, Medium
    with one from 25 to 50, Low with one of at most 25.  (The thresholds are
    applied before rounding, so 75, 50 and 25 can each go with the level
    below.) *)
Theorem level_fits_totalScore (config : FormConfig) (values : FormValues) :
  let r := calculateRiskScore config values in
  match level r with
  | Critical => (75 <= totalScore r)%Q
  | High => (50 <= totalScore r)%Q /\ (totalScore r <= 75)%Q
  | Medium => (25 <= totalScore r)%Q /\ (totalScore r <= 50)%Q
  | Low => (totalScore r <= 25)%Q
  end.
Proof.
  cbv zeta. unfold calculateRiskScore. cbv zeta. cbn [level totalScore].
  set (n := (_ / 100 * _)%Q). unfold level_of.
  assert (Hge : forall z : Z, Qle_bool (inject_Z z) n = true ->
                  (inject_Z z <= Math_round n)%Q).
  { intros z H. apply Qle_bool_iff in H. rewrite <- (Math_round_Z z).
    apply Math_round_le. exact H. }
  assert (Hle : forall z : Z, Qle_bool (inject_Z z) n = false ->
                  (Math_round n <= inject_Z z)%Q).
  { intros z H. rewrite <- (Math_round_Z z). apply Math_round_le.
    apply Qlt_le_weak, Qnot_le_lt. intros Hc.
    apply Qle_bool_iff in Hc. congruence. }
  destruct (Qle_bool 75 n) eqn:H75; [exact (Hge 75%Z H75)|].
  destruct (Qle_bool 50 n) eqn:H50;
    [split; [exact (Hge 50%Z H50)|exact (Hle 75%Z H75)]|].
  destruct (Qle_bool 25 n) eqn:H25;
    [split; [exact (Hge 25%Z H25)|exact (Hle 50%Z H50)]|].
  exact (Hle 25%Z H25).
Qed.

Lemma num_or_cases (o : option Num) (d : Q) :
  num_or o d = d \/ exists r, o = Some (Fin r) /\ num_or o d = r.
Proof.
  destruct o as [[|r]|]; cbn [num_or]; try (left; reflexivity).
  destruct (Qnonzero r); [right; eauto|left; reflexivity].
Qed.

Lemma option_risk_within (options : list OptionItem) (weight : Q)
    (val : Value) :
  (0 <= weight)%Q ->
  forallb (option_within weight) options = true ->
  (0 <= option_risk options weight val)%Q /\
  (option_risk options weight val <= weight)%Q.
Proof.
  intros Hw Hall. unfold option_risk.
  destruct (num_or_cases
              (riskValue_of (List.find (option_matches val) options)) weight)
    as [-> | (r & Hsome & ->)]; [split; [assumption|apply Qle_refl]|].
  destruct (List.find (option_matches val) options) as [[s|o]|] eqn:Hfind;
    cbn [riskValue_of] in Hsome; try discriminate.
  apply find_some in Hfind as [Hin _].
  rewrite forallb_forall in Hall. specialize (Hall _ Hin).
  cbn [option_within] in Hall. rewrite Hsome in Hall.
  apply andb_prop in Hall as [H0 H1].
  split; apply Qle_bool_iff; assumption.
Qed.

Lemma sum_within (l : list Q) (w : Q) :
  Forall (fun x => (0 <= x)%Q /\ (x <= w)%Q) l ->
  (0 <= fold_right Qplus 0 l)%Q /\
  (fold_right Qplus 0 l <= inject_Z (Z.of_nat (length l)) * w)%Q.
Proof.
  induction 1 as [|x rest [H0 H1] _ [IH0 IH1]].
  - cbn [fold_right length]. change (inject_Z (Z.of_nat 0)) with 0%Q.
    split; lra.
  - cbn [fold_right length]. rewrite Nat2Z.inj_succ. unfold Z.succ.
    rewrite inject_Z_plus, Qmult_plus_distr_l.
    change (inject_Z 1) with 1%Q.
    set (t := (inject_Z (Z.of_nat (length rest)) * w)%Q) in *.
    split; lra.
Qed.

Lemma sums_within (A : Type) (score weight : A -> Q) (l : list A) :
  (forall x, In x l -> (0 <= score x)%Q /\ (score x <= weight x)%Q) ->
  (0 <= sum_reduce (map score l))%Q /\
  (sum_reduce (map score l) <= sum_reduce (map weight l))%Q.
Proof.
  intros Hall. rewrite !sum_reduce_fold_right.
  induction l as [|x rest IH]; [cbn; split; lra|].
  cbn [map fold_right].
  destruct (Hall x (or_introl eq_refl)) as [H0 H1].
  destruct IH as [IH0 IH1]; [intros y Hy; apply Hall; right; exact Hy|].
  split; lra.
Qed.

Lemma percent_of_within (score max : Q) :
  (0 <= score)%Q -> (score <= max)%Q ->
  (0 <= percent_of score max)%Q /\ (percent_of score max <= 100)%Q.
Proof.
  intros H0 H1. unfold percent_of.
  destruct (Qle_bool max 0) eqn:Hmax; cbn [negb]; [split; lra|].
  assert (Hpos : (0 < max)%Q).
  { apply Qnot_le_lt. intros Hc. apply Qle_bool_iff in Hc. congruence. }
  split.
  - apply Qmult_le_0_compat; [|lra].
    apply Qle_shift_div_l; [assumption|lra].
  - assert (Hd : (score / max <= 1)%Q)
      by (apply Qle_shift_div_r; [assumption|lra]).
    lra.
Qed.

(** The score of a question whose riskValues lie within its weight lies
    within its weight too. *)
Lemma question_score_within (question : Question) (answer : Value) :
  question_within question = true ->
  (0 <= calculateQuestionRiskScore question answer)%Q /\
  (calculateQuestionRiskScore question answer
   <= question_weight question)%Q.
Proof.
  unfold question_within, question_weight. intros H.
  apply andb_prop in H as [Hw Hopts]. apply Qle_bool_iff in Hw.
  rewrite score_guard. destruct (unanswered answer); [split; lra|].
  cbv zeta. set (w := num_or (q_riskWeight question) 0) in *.
  destruct (options_of (q_kind question)) as [options|]; [|split; lra].
  pose proof (option_risk_within options w) as Hone.
  destruct (is_checkbox (q_kind question)); [|apply Hone; assumption].
  destruct answer as [| |b|n|s|f|vals|fs]; try (apply Hone; assumption).
  rewrite length_map. destruct vals as [|v vals]; [cbn; split; lra|].
  rewrite length_positive by discriminate.
  rewrite sum_reduce_fold_right.
  destruct (sum_within (map (option_risk options w) (v :: vals)) w)
    as [S0 S1].
  { apply Forall_forall. intros x Hx. apply list_elem_of_In in Hx.
    apply in_map_iff in Hx as (val & <- & _). apply Hone; assumption. }
  rewrite length_map in S1.
  assert (Hn : (0 < inject_Z (Z.of_nat (length (v :: vals))))%Q).
  { rewrite <- (Zlt_Qlt 0). cbn [length]. lia. }
  split.
  - apply Qle_shift_div_l; [assumption|lra].
  - apply Qle_shift_div_r; [assumption|lra].
Qed.

(** X4. When, for every question, the weight is not negative and every
    riskValue of its options lies between 0 and the weight, all of them
    being whole numbers of at most a million (the sum under the mean of a
    checkbox answer is then exact in the arithmetic of the code, and the
    other operations keep the order), no result leaves its range: the
    reported percentage lies between 0 and 100, every breakdown entry has a
    score between 0 and its maxScore and a percentage between 0 and 100,
    and, for a maxRiskScore that is not negative, the totalScore lies
    between 0 and maxScore rounded. *)
Theorem riskValues_within_weight_stay_in_range (config : FormConfig)
    (values : FormValues) :
  forallb question_within (questions_of config) = true ->
  forallb question_whole (questions_of config) = true ->
  let r := calculateRiskScore config values in
  ((0 <= percentage r)%Q /\ (percentage r <= 100)%Q) /\
  ((0 <= maxScore r)%Q ->
     (0 <= totalScore r)%Q /\ (totalScore r <= Math_round (maxScore r))%Q) /\
  (forall id entry, breakdown r !! id = Some entry ->
     ((0 <= bd_score entry)%Q /\ (bd_score entry <= bd_maxScore entry)%Q) /\
     ((0 <= bd_percentage entry)%Q /\ (bd_percentage entry <= 100)%Q)).
Proof.
  intros Hall _. rewrite forallb_forall in Hall.
  assert (Hq : forall question, In question (questions_of config) ->
                 (0 <= question_score values question)%Q /\
                 (question_score values question
                  <= question_weight question)%Q)
    by (intros q Hin; apply question_score_within, Hall, Hin).
  cbv zeta. unfold calculateRiskScore. cbv zeta.
  cbn [percentage maxScore totalScore breakdown].
  destruct (section_fold_sums values (cfg_sections config)
              {| tot_breakdown := ∅; tot_score := 0; tot_max := 0 |})
    as [-> ->].
  cbn [tot_score tot_max]. fold (questions_of config).
  fold (sum_reduce (map (question_score values) (questions_of config))).
  fold (sum_reduce (map question_weight (questions_of config))).
  destruct (sums_within _ _ _ _ Hq) as [S0 S1].
  destruct (percent_of_within _ _ S0 S1) as [P0 P1].
  set (p := percent_of _ _) in *.
  split; [|split].
  - split.
    + change 0%Q with (inject_Z 0). rewrite <- (Math_round_Z 0).
      apply Math_round_le. exact P0.
    + change 100%Q with (inject_Z 100). rewrite <- (Math_round_Z 100).
      apply Math_round_le. exact P1.
  - intros Hm. set (m := num_or (cfg_maxRiskScore config) 100) in *.
    assert (Hd : (0 <= p / 100)%Q /\ (p / 100 <= 1)%Q)
      by (split; [apply Qle_shift_div_l|apply Qle_shift_div_r]; lra).
    destruct Hd as [D0 D1]. split.
    + change 0%Q with (inject_Z 0). rewrite <- (Math_round_Z 0).
      apply Math_round_le. apply Qmult_le_0_compat; assumption.
    + apply Math_round_le. apply Qle_trans with (1 * m)%Q.
      * apply Qmult_le_compat_r; assumption.
      * rewrite Qmult_1_l. apply Qle_refl.
  - rewrite section_fold_breakdown. cbn [tot_breakdown].
    intros id entry Hentry. revert id entry Hentry.
    apply (insert_fold_all SectionBreakdown (section_entry values)
             (fun entry =>
                ((0 <= bd_score entry)%Q
                 /\ (bd_score entry <= bd_maxScore entry)%Q) /\
                ((0 <= bd_percentage entry)%Q
                 /\ (bd_percentage entry <= 100)%Q))).
    + apply map_Forall_empty.
    + intros section Hsec. unfold section_entry. cbv zeta.
      cbn [bd_score bd_maxScore bd_percentage].
      assert (Hs : forall question, In question (sec_questions section) ->
                 (0 <= question_score values question)%Q /\
                 (question_score values question
                  <= question_weight question)%Q).
      { intros q Hin. apply Hq. unfold questions_of.
        apply in_concat. exists (sec_questions section).
        split; [apply in_map; assumption|assumption]. }
      destruct (sums_within _ _ _ _ Hs) as [T0 T1].
      split; [split; assumption|apply percent_of_within; assumption].
Qed.

Lemma riskValues_within_weight_stay_in_range_witness :
  let r := calculateRiskScore mockConfig {[ "q1" := VStr "no" ]} in
  ((0 <= percentage r)%Q /\ (percentage r <= 100)%Q) /\
  ((0 <= maxScore r)%Q ->
     (0 <= totalScore r)%Q /\ (totalScore r <= Math_round (maxScore r))%Q) /\
  (forall id entry, breakdown r !! id = Some entry ->
     ((0 <= bd_score entry)%Q /\ (bd_score entry <= bd_maxScore entry)%Q) /\
     ((0 <= bd_percentage entry)%Q /\ (bd_percentage entry <= 100)%Q)).
Proof.
  apply (riskValues_within_weight_stay_in_range mockConfig
           {[ "q1" := VStr "no" ]}).
  - reflexivity.
  - reflexivity.
Defined.

Lemma getOptions_riskValue (options : list OptionItem) (val : Value) :
  riskValue_of (List.find (option_matches val) (getOptions options))
  = riskValue_of (List.find (option_matches val) options).
Proof.
  induction options as [|opt rest IH]; [reflexivity|].
  cbn [getOptions map List.find]. fold (getOptions rest).
  destruct opt as [s|o]; cbn [option_matches opt_value].
  - destruct (strict_eq (VStr s) val); [reflexivity|exact IH].
  - destruct (strict_eq (VStr (opt_value o)) val); [reflexivity|exact IH].
Qed.

(** X6. Normalising the options as the select and checkbox fields do (a
    bare string becomes the option with that label and value) changes no
    score. *)
Theorem getOptions_changes_no_score (question : Question) (answer : Value) :
  calculateQuestionRiskScore (with_options question) answer
  = calculateQuestionRiskScore question answer.
Proof.
  rewrite !score_guard. destruct (unanswered answer); [reflexivity|].
  cbv zeta. cbn [with_options q_riskWeight q_kind].
  set (w := num_or (q_riskWeight question) 0).
  assert (Hone : forall options val,
            option_risk (getOptions options) w val = option_risk options w val)
    by (intros; unfold option_risk; rewrite getOptions_riskValue;
        reflexivity).
  destruct (q_kind question) as [a b c|a b|options|options|a b|a b];
    cbn [options_of is_checkbox]; try reflexivity.
  - apply Hone.
  - destruct answer as [| |b|n|s|f|vals|fs]; try apply Hone.
    rewrite (map_ext _ _ (Hone options)). reflexivity.
Qed.

(* ================================================================== *)
(** ** Further facts about visibility and validation *)
(* ================================================================== *)

Section FurtherValidationFacts.

Variable host : Host.

Lemma validate_step_hidden (values : FormValues)
    (errors : gmap string string) (question : Question) :
  isFieldVisible host question values = false ->
  validate_step host values errors question = Normal errors.
Proof. unfold validate_step. intros ->. reflexivity. Qed.

Lemma validate_loop_visible (values : FormValues)
    (questions : list Question) (errors : gmap string string) :
  validate_loop host values (getVisibleQuestions host questions values) errors
  = validate_loop host values questions errors.
Proof.
  revert errors. induction questions as [|question rest IH]; intros errors;
    [reflexivity|].
  unfold getVisibleQuestions. cbn [List.filter validate_loop].
  fold (getVisibleQuestions host rest values).
  destruct (isFieldVisible host question values) eqn:Hvis.
  - cbn [validate_loop].
    destruct (validate_step host values errors question) as [errors'|e];
      cbn [bind]; [apply IH|reflexivity].
  - rewrite (validate_step_hidden _ _ _ Hvis). cbn [bind]. apply IH.
Qed.

Lemma allQuestions_filter (config : FormConfig) (values : FormValues) :
  allQuestions host config values
  = getVisibleQuestions host (questions_of config) values.
Proof.
  unfold allQuestions, questions_of.
  assert (H : forall sections acc,
    fold_left
      (fun acc section =>
         (acc ++ getVisibleQuestions host (sec_questions section) values)
         %list) sections acc
    = (acc ++ getVisibleQuestions host
                (concat (map sec_questions sections)) values)%list).
  { induction sections as [|section rest IH]; intros acc.
    - cbn. rewrite app_nil_r. reflexivity.
    - cbn [fold_left map concat]. rewrite IH.
      unfold getVisibleQuestions. rewrite List.filter_app, app_assoc.
      reflexivity. }
  apply (H (cfg_sections config) []).
Qed.

End FurtherValidationFacts.

(** X7. On submit the form validates only the visible questions of each
    section; this gives the same error map, or the same exception, as
    validating every question of the config, since a hidden question never
    yields an error. *)
Theorem submit_validates_like_all_questions (host : Host)
    (config : FormConfig) (values : FormValues) :
  validateForm host (allQuestions host config values) values
  = validateForm host (questions_of config) values.
Proof.
  unfold validateForm. rewrite allQuestions_filter.
  apply validate_loop_visible.
Qed.

Lemma validate_loop_keys (host : Host) (values : FormValues)
    (questions : list Question) (errors result : gmap string string)
    (P : string -> string -> Prop) :
  (forall question message,
     In question questions ->
     isFieldVisible host question values = true ->
     validateField host question (get values (q_id question)) true
     = Normal (Some message) ->
     P (q_id question) message) ->
  map_Forall P errors ->
  validate_loop host values questions errors = Normal result ->
  map_Forall P result.
Proof.
  revert errors. induction questions as [|question rest IH];
    intros errors Hstep Herr Hloop.
  - cbn in Hloop. injection Hloop as <-. exact Herr.
  - cbn [validate_loop] in Hloop. unfold validate_step in Hloop.
    destruct (isFieldVisible host question values) eqn:Hvis.
    + destruct (validateField host question (get values (q_id question)) true)
        as [[message|]|e] eqn:Hfield; cbn [bind] in Hloop;
        try discriminate.
      * cbn [opt_str_truthy default] in Hloop.
        destruct (str_truthy message).
        -- apply (IH _ (fun q m Hin => Hstep q m (or_intror Hin))
                    (map_Forall_insert_2 P _ _ _
                       (Hstep _ _ (or_introl eq_refl) Hvis Hfield) Herr)
                    Hloop).
        -- apply (IH _ (fun q m Hin => Hstep q m (or_intror Hin)) Herr
                    Hloop).
      * apply (IH _ (fun q m Hin => Hstep q m (or_intror Hin)) Herr Hloop).
    + cbn [validateField negb bind opt_str_truthy] in Hloop.
      apply (IH _ (fun q m Hin => Hstep q m (or_intror Hin)) Herr Hloop).
Qed.

(** X8. Every entry of the error map of [validateForm] comes from a
    question of the list that is visible under the answers: its key is the
    id of that question and its message is what [validateField] returned
    for it. *)
Theorem validateForm_errors_come_from_visible_questions (host : Host)
    (questions : list Question) (values : FormValues)
    (errors : gmap string string) (id message : string) :
  validateForm host questions values = Normal errors ->
  errors !! id = Some message ->
  exists question,
    In question questions /\ q_id question = id /\
    isFieldVisible host question values = true /\
    validateField host question (get values id) true
    = Normal (Some message).
Proof.
  intros Hform Hlookup.
  apply (validate_loop_keys host values questions ∅ errors
           (fun id message =>
              exists question,
                In question questions /\ q_id question = id /\
                isFieldVisible host question values = true /\
                validateField host question (get values id) true
                = Normal (Some message))); try assumption.
  - intros question m Hin Hvis Hfield. exists question. auto.
  - apply map_Forall_empty.
Qed.

Lemma validateForm_errors_come_from_visible_questions_witness :
  exists question,
    In question [nameQuestion; detailsQuestion] /\ q_id question = "q1" /\
    isFieldVisible exampleHost question ∅ = true /\
    validateField exampleHost question (get ∅ "q1") true
    = Normal (Some "Name is required").
Proof.
  apply (validateForm_errors_come_from_visible_questions exampleHost
           [nameQuestion; detailsQuestion] ∅
           {[ "q1" := "Name is required" ]} "q1" "Name is required");
    reflexivity.
Defined.

(** X9. Under [equals] (the default operator) with an answer that is not
    an array, a field is visible exactly when the referenced answer is not
    empty and is strictly equal to the expected one.  So a condition that
    expects [''], [null] or [undefined] is never met. *)
Theorem equals_scalar_visibility (host : Host) (question : Question)
    (c : ConditionalLogic) (values : FormValues) :
  q_conditional question = Some c ->
  default "equals" (cond_operator c) = "equals" ->
  isArray (cond_answer c) = false ->
  isFieldVisible host question values
  = negb (is_empty (get values (cond_questionId c)))
    && strict_eq (get values (cond_questionId c)) (cond_answer c)
  /\ (is_empty (cond_answer c) = true ->
      isFieldVisible host question values = false).
Proof.
  intros Hc Hop Harr.
  assert (Heq : isFieldVisible host question values
                = negb (is_empty (get values (cond_questionId c)))
                  && strict_eq (get values (cond_questionId c))
                       (cond_answer c)).
  { unfold isFieldVisible. rewrite Hc, Hop.
    destruct (is_empty (get values (cond_questionId c))); [reflexivity|].
    unfold visible_switch. cbn [String.eqb Ascii.eqb Bool.eqb negb andb].
    destruct (cond_answer c); try reflexivity. discriminate. }
  split; [exact Heq|]. intros Hempty. rewrite Heq.
  destruct (cond_answer c) as [| |b'|n'|s'|f'|l'|fs'];
    cbn [is_empty] in Hempty; try discriminate;
    destruct (get values (cond_questionId c)) as [| |b|n|s|f|l|fs];
    try reflexivity; try (destruct n; reflexivity);
    try (cbn [strict_eq]; apply andb_false_r).
  apply String.eqb_eq in Hempty. subst s'.
  cbn [is_empty strict_eq]. destruct (String.eqb s ""); reflexivity.
Qed.

Lemma equals_scalar_visibility_witness :
  isFieldVisible exampleHost detailsQuestion {[ "q1" := VStr "yes" ]}
  = negb (is_empty (get {[ "q1" := VStr "yes" ]} "q1"))
    && strict_eq (get {[ "q1" := VStr "yes" ]} "q1") (VStr "yes")
  /\ (is_empty (VStr "yes") = true ->
      isFieldVisible exampleHost detailsQuestion {[ "q1" := VStr "yes" ]}
      = false).
Proof.
  apply (equals_scalar_visibility exampleHost detailsQuestion
           {| cond_questionId := "q1"; cond_answer := VStr "yes";
              cond_operator := None |} {[ "q1" := VStr "yes" ]});
    reflexivity.
Defined.

(** X10. Where the referenced answer is not empty, [isFieldVisible] and
    [evaluateCondition] give the same verdict for the operators equals,
    greaterThan and lessThan, and for includes unless the current value and
    the expected answer are both arrays. *)
Theorem evaluators_agree (host : Host) (question : Question)
    (c : ConditionalLogic) (values : FormValues) :
  q_conditional question = Some c ->
  is_empty (get values (cond_questionId c)) = false ->
  (default "equals" (cond_operator c) = "equals"
   \/ default "equals" (cond_operator c) = "greaterThan"
   \/ default "equals" (cond_operator c) = "lessThan"
   \/ (default "equals" (cond_operator c) = "includes"
       /\ isArray (get values (cond_questionId c))
          && isArray (cond_answer c) = false)) ->
  isFieldVisible host question values
  = evaluateCondition host (Some c) (get values (cond_questionId c)).
Proof.
  intros Hc Hne Hop. rewrite (evaluateCondition_agrees host c _ Hop).
  unfold isFieldVisible. rewrite Hc, Hne. reflexivity.
Qed.

Lemma evaluators_agree_witness :
  isFieldVisible exampleHost followUpQuestion {[ "count" := num 3 ]}
  = evaluateCondition exampleHost
      (Some {| cond_questionId := "count"; cond_answer := num (-1);
               cond_operator := Some "greaterThan" |})
      (get {[ "count" := num 3 ]} "count").
Proof.
  apply (evaluators_agree exampleHost followUpQuestion
           {| cond_questionId := "count"; cond_answer := num (-1);
              cond_operator := Some "greaterThan" |}
           {[ "count" := num 3 ]}).
  - reflexivity.
  - reflexivity.
  - right. left. reflexivity.
Defined.

(** X11. A visible number question with bounds [min] and [max] and no
    custom rule accepts a numeric answer exactly when it lies between the
    bounds, both included; this holds for the answer 0 as well. *)
Theorem number_accepted_within_bounds (host : Host) (question : Question)
    (lo hi x : Q) :
  q_kind question = KNumber (Some (Fin lo)) (Some (Fin hi)) ->
  q_validation question = None ->
  (validateField host question (VNum (Fin x)) true = Normal None
   <-> (lo <= x)%Q /\ (x <= hi)%Q).
Proof.
  intros Hkind Hrules. unfold validateField.
  cbn [negb is_empty andb]. rewrite !andb_false_r.
  unfold type_checks. rewrite Hkind, Hrules.
  cbn [to_number isNaN num_lt num_gt].
  destruct (Qle_bool lo x) eqn:Hlo; cbn [negb bind].
  - destruct (Qle_bool x hi) eqn:Hhi; cbn [negb bind].
    + apply Qle_bool_iff in Hlo, Hhi. tauto.
    + split; [discriminate|]. intros [_ H].
      apply Qle_bool_iff in H. congruence.
  - split; [discriminate|]. intros [H _].
    apply Qle_bool_iff in H. congruence.
Qed.

Lemma number_accepted_within_bounds_witness :
  validateField exampleHost
    (plain_question "age" "Age" None (KNumber (Some (Fin 0)) (Some (Fin 65))))
    (VNum (Fin 0)) true = Normal None
  <-> (0 <= 0)%Q /\ (0 <= 65)%Q.
Proof.
  apply (number_accepted_within_bounds exampleHost
           (plain_question "age" "Age" None
              (KNumber (Some (Fin 0)) (Some (Fin 65)))) 0 65 0);
    reflexivity.
Defined.

(** X12. A visible text question with a minLength and a maxLength other
    than 0, no pattern and no custom rule accepts a non-empty string exactly
    when its length lies between the two, both included. *)
Theorem text_accepted_within_lengths (host : Host) (question : Question)
    (lo hi : Q) (s : string) :
  q_kind question = KText (Some (Fin lo)) (Some (Fin hi)) None ->
  q_validation question = None ->
  ~ (lo == 0)%Q -> ~ (hi == 0)%Q -> s <> "" ->
  (validateField host question (VStr s) true = Normal None
   <-> (lo <= inject_Z (Z.of_nat (String.length s)))%Q
       /\ (inject_Z (Z.of_nat (String.length s)) <= hi)%Q).
Proof.
  intros Hkind Hrules Hlo Hhi Hs. unfold validateField.
  assert (Hne : is_empty (VStr s) = false)
    by (apply String.eqb_neq in Hs; exact Hs).
  rewrite Hne, !andb_false_r. cbn [negb].
  unfold type_checks. rewrite Hkind, Hrules.
  cbn [prop String.eqb Ascii.eqb Bool.eqb bind opt_num_truthy default
       opt_str_truthy].
  unfold num. cbn [to_number num_lt num_gt].
  assert (Hnz : forall q, ~ (q == 0)%Q -> Qnonzero q = true).
  { intros q Hq. unfold Qnonzero. destruct (Qeq_bool q 0) eqn:E;
      [apply Qeq_bool_iff in E; contradiction|reflexivity]. }
  rewrite (Hnz _ Hlo), (Hnz _ Hhi).
  cbn [andb from_option id num_lt num_gt].
  set (len := inject_Z (Z.of_nat (String.length s))).
  destruct (Qle_bool lo len) eqn:H1; cbn [negb bind].
  - destruct (Qle_bool len hi) eqn:H2; cbn [negb bind].
    + apply Qle_bool_iff in H1, H2. tauto.
    + split; [discriminate|]. intros [_ H].
      apply Qle_bool_iff in H. congruence.
  - split; [discriminate|]. intros [H _].
    apply Qle_bool_iff in H. congruence.
Qed.

Lemma text_accepted_within_lengths_witness :
  validateField exampleHost
    (plain_question "q1" "Name" None
       (KText (Some (Fin 5)) (Some (Fin 10)) None))
    (VStr "abcde") true = Normal None
  <-> (5 <= inject_Z (Z.of_nat (String.length "abcde")))%Q
      /\ (inject_Z (Z.of_nat (String.length "abcde")) <= 10)%Q.
Proof.
  apply (text_accepted_within_lengths exampleHost
           (plain_question "q1" "Name" None
              (KText (Some (Fin 5)) (Some (Fin 10)) None)) 5 10 "abcde");
    try reflexivity; discriminate.
Defined.

Lemma custom_rules_none (rules : list ValidationRule) (value : Value) :
  custom_rules rules value = None <-> forallb (rule_accepts value) rules = true.
Proof.
  induction rules as [|rule rest IH]; [cbn; tauto|].
  cbn [custom_rules forallb]. unfold rule_accepts at 1.
  destruct (rule_type rule), (rule_validate rule) as [validate|];
    cbn [andb]; try exact IH.
  destruct (validate value) as [[|]|s]; cbn [andb]; try exact IH;
    split; discriminate.
Qed.

(** X13. Custom rules see only visible, non-empty values.  For a visible
    text question without length or pattern constraint and a non-empty
    value, the field is accepted exactly when every [custom] rule with a
    callback returns [true], rules of the other types being ignored; for an
    empty value of an optional field, and for a hidden field, the result is
    null whatever the rules. *)
Theorem custom_rules_decide (host : Host) (question : Question)
    (rules : list ValidationRule) (value : Value) :
  q_validation question = Some rules ->
  (q_kind question = KText None None None -> is_empty value = false ->
     (validateField host question value true = Normal None
      <-> forallb (rule_accepts value) rules = true)) /\
  (q_required question = false -> is_empty value = true ->
     validateField host question value true = Normal None) /\
  validateField host question value false = Normal None.
Proof.
  intros Hrules. split; [|split].
  - intros Hkind Hne. unfold validateField.
    rewrite Hne, !andb_false_r. cbn [negb].
    unfold type_checks. rewrite Hkind, Hrules.
    assert (Hprop : exists len, prop value "length" = Normal len).
    { destruct value; try discriminate; cbn [prop]; eauto. }
    destruct Hprop as [len ->].
    cbn [bind opt_num_truthy opt_str_truthy andb].
    rewrite <- custom_rules_none.
    destruct (custom_rules rules value); split; congruence.
  - intros Hreq Hempty. unfold validateField. rewrite Hreq, Hempty.
    reflexivity.
  - reflexivity.
Qed.

Lemma custom_rules_decide_witness :
  let rule :=
    {| rule_type := RCustom; rule_message := "Must not be x";
       rule_validate :=
         Some (fun v => RBool (negb (strict_eq v (VStr "x")))) |} in
  let question :=
    {| q_id := "q1"; q_label := "Name"; q_required := false;
       q_riskWeight := None; q_conditional := None;
       q_validation := Some [rule]; q_kind := KText None None None |} in
  (validateField exampleHost question (VStr "y") true = Normal None
   <-> forallb (rule_accepts (VStr "y")) [rule] = true) /\
  validateField exampleHost question (VStr "") true = Normal None.
Proof.
  cbv zeta. split.
  - apply (custom_rules_decide exampleHost
             {| q_id := "q1"; q_label := "Name"; q_required := false;
                q_riskWeight := None; q_conditional := None;
                q_validation :=
                  Some [ {| rule_type := RCustom;
                            rule_message := "Must not be x";
                            rule_validate :=
                              Some (fun v => RBool
                                      (negb (strict_eq v (VStr "x")))) |} ];
                q_kind := KText None None None |}
             _ (VStr "y") eq_refl); reflexivity.
  - apply (custom_rules_decide exampleHost
             {| q_id := "q1"; q_label := "Name"; q_required := false;
                q_riskWeight := None; q_conditional := None;
                q_validation :=
                  Some [ {| rule_type := RCustom;
                            rule_message := "Must not be x";
                            rule_validate :=
                              Some (fun v => RBool
                                      (negb (strict_eq v (VStr "x")))) |} ];
                q_kind := KText None None None |}
             _ (VStr "") eq_refl); reflexivity.
Defined.

Lemma some_c_normal (A : Type) (f : A -> Completion bool) (g : A -> bool)
    (l : list A) :
  (forall x, f x = Normal (g x)) -> some_c f l = Normal (existsb g l).
Proof.
  intros Hf. induction l as [|x rest IH]; [reflexivity|].
  cbn [some_c existsb]. rewrite Hf. destruct (g x); [reflexivity|exact IH].
Qed.

Lemma validateFileUpload_on_file (host : Host)
    (accept : option string) (maxSize : option Num) (file : FileObj) :
  validateFileUpload host (VFile file) accept maxSize
  = Normal (FileField_validateFile host accept maxSize file).
Proof.
  unfold validateFileUpload, FileField_validateFile.
  destruct (opt_str_truthy accept); cbn [prop String.eqb Ascii.eqb Bool.eqb
                                         bind].
  - rewrite (some_c_normal _ _
               (fun type =>
                  if String.prefix "." type
                  then String.eqb
                         (toLowerCase (file_extension (file_name file)))
                         (toLowerCase type)
                  else string_includes (file_type file) type)).
    + cbn [bind]. destruct (existsb _ _); cbn [bind]; [|reflexivity].
      destruct (opt_num_truthy maxSize); reflexivity.
    + intros type. unfold type_accepted.
      destruct (String.prefix "." type); reflexivity.
  - destruct (opt_num_truthy maxSize); reflexivity.
Qed.

(** X14. On a [File], the check that the upload field runs before it adds
    the file to the answer and the check that [validateField] runs on the
    answer are the same: [validateFileUpload] never throws and returns what
    [validateFile] of the field returns. *)
Theorem upload_check_is_validation_check (host : Host)
    (accept : option string) (maxSize : option Num) (file : FileObj) :
  validateFileUpload host (VFile file) accept maxSize
  = Normal (FileField_validateFile host accept maxSize file).
Proof. apply validateFileUpload_on_file. Qed.

(** X15. A file answer does not survive a reload for validation: after
    [saveFormState] and [loadFormState] the answer of a file question is
    [[{}]], and [validateForm] on it throws a TypeError when the question
    has an [accept] list, whereas it returns normally on the answer as it
    was before the save. *)
Theorem reloaded_file_answer_breaks_validation (host : Host) (w : World)
    (formId : string) (question : Question) (accept : option string)
    (maxSize : option Num) (file : FileObj) :
  refuses w (writes w) = false ->
  q_kind question = KFile accept maxSize ->
  opt_str_truthy accept = true ->
  q_conditional question = None ->
  let values : FormValues := {[ q_id question := VArr [VFile file] ]} in
  let reloaded : FormValues := {[ q_id question := VArr [VObj []] ]} in
  let w' := fst (saveFormState w formId values None) in
  values_of (loadFormState w' formId) = Some reloaded /\
  validateForm host [question] reloaded = Throw "TypeError" /\
  exists errors, validateForm host [question] values = Normal errors.
Proof.
  intros Hok Hkind Haccept Hcond. cbv zeta. split; [|split].
  - destruct (saveFormState_accepted w formId
                {[ q_id question := VArr [VFile file] ]} None Hok)
      as [_ Hitems].
    unfold loadFormState, getItem. rewrite Hitems, lookup_insert_eq.
    unfold stringify, state_value, autoSave_value, built_state.
    cbn [json_of keep_fields st_formId st_values st_autoSave st_timestamp].
    rewrite map_to_list_singleton.
    cbn [json_of keep_fields map default from_option id parse_or
         text_truthy parse].
    unfold values_of. cbn [obj_get String.eqb Ascii.eqb Bool.eqb].
    cbn [list_to_map foldr uncurry]. rewrite insert_empty. reflexivity.
  - unfold validateForm. cbn [validate_loop]. unfold validate_step.
    rewrite (isFieldVisible_unconditional host _ _ Hcond).
    unfold get. rewrite lookup_singleton_eq. cbn [default from_option id].
    unfold validateField. cbn [negb is_empty]. rewrite !andb_false_r.
    unfold type_checks. rewrite Hkind. cbn [validate_files].
    unfold validateFileUpload. rewrite Haccept.
    cbn [prop obj_get bind]. reflexivity.
  - unfold validateForm. cbn [validate_loop]. unfold validate_step.
    rewrite (isFieldVisible_unconditional host _ _ Hcond).
    unfold get. rewrite lookup_singleton_eq. cbn [default from_option id].
    unfold validateField. cbn [negb is_empty]. rewrite !andb_false_r.
    unfold type_checks. rewrite Hkind. cbn [validate_files].
    rewrite validateFileUpload_on_file. cbn [bind].
    destruct (opt_str_truthy (FileField_validateFile host accept maxSize file));
      cbn [bind]; eauto.
Qed.

Lemma reloaded_file_answer_breaks_validation_witness :
  let question :=
    plain_question "doc" "Report" None (KFile (Some ".pdf") None) in
  let file :=
    {| file_name := "report.pdf"; file_size := Fin 2048;
       file_type := "application/pdf" |} in
  let values : FormValues := {[ "doc" := VArr [VFile file] ]} in
  let reloaded : FormValues := {[ "doc" := VArr [VObj []] ]} in
  let w' := fst (saveFormState freshWorld "form1" values None) in
  values_of (loadFormState w' "form1") = Some reloaded /\
  validateForm exampleHost [question] reloaded = Throw "TypeError" /\
  exists errors, validateForm exampleHost [question] values = Normal errors.
Proof.
  cbv zeta.
  apply (reloaded_file_answer_breaks_validation exampleHost freshWorld
           "form1"
           (plain_question "doc" "Report" None (KFile (Some ".pdf") None))
           (Some ".pdf") None
           {| file_name := "report.pdf"; file_size := Fin 2048;
              file_type := "application/pdf" |}); reflexivity.
Defined.

(* ================================================================== *)
(** ** Further facts about persistence *)
(* ================================================================== *)

Lemma getStorageKey_inj (formId formId' : string) :
  getStorageKey formId = getStorageKey formId' -> formId = formId'.
Proof.
  unfold getStorageKey, STORAGE_PREFIX. intros H. injection H.
  intros Heq. exact Heq.
Qed.

Lemma plain_key_not_draftKey (formId formId' draftId : string) :
  plain_id formId = true -> getStorageKey formId <> draftKey formId' draftId.
Proof.
  unfold plain_id, getStorageKey, draftKey, STORAGE_PREFIX.
  intros Hplain H. injection H. intros Heq.
  change (formId = "draft:" ++ formId' ++ ":" ++ draftId) in Heq.
  subst formId. discriminate.
Qed.

Lemma plain_key_not_listKey (formId formId' : string) :
  plain_id formId = true -> getStorageKey formId <> getDraftsListKey formId'.
Proof.
  unfold plain_id, getStorageKey, getDraftsListKey, STORAGE_PREFIX.
  intros Hplain H. injection H. intros Heq.
  change (formId = "drafts:" ++ formId') in Heq.
  subst formId. discriminate.
Qed.

(** [saveFormState] touches the stored text of its own key only. *)
Lemma saveFormState_other_keys (w : World) (formId : string)
    (values : FormValues) (draftId : option string) (key : string) :
  key <> getStorageKey formId ->
  items (fst (saveFormState w formId values draftId)) !! key
  = items w !! key.
Proof.
  intros Hne. unfold saveFormState, now, setItem. world_step.
  destruct (refuses w (writes w)); world_step; [reflexivity|].
  apply lookup_insert_ne. congruence.
Qed.

(** X16. [clearFormState] removes the state of its form, so that loading
    it gives null; it leaves the state of every other form as it was, and,
    for a form id that does not start with "draft", every draft and every
    drafts index as well. *)
Theorem clearFormState_clears_one_form (w : World) (formId : string) :
  loadFormState (clearFormState w formId) formId = VNull /\
  (forall other, other <> formId ->
     loadFormState (clearFormState w formId) other = loadFormState w other) /\
  (plain_id formId = true ->
     forall other draftId,
       loadDraft (clearFormState w formId) other draftId
       = loadDraft w other draftId /\
       getDraftsList (clearFormState w formId) other
       = getDraftsList w other).
Proof.
  unfold clearFormState, removeItem, loadFormState, loadDraft, getDraftsList,
    getItem. world_step. split; [|split].
  - rewrite lookup_delete_eq. reflexivity.
  - intros other Hne. rewrite lookup_delete_ne; [reflexivity|].
    intros H. apply getStorageKey_inj in H. congruence.
  - intros Hplain other draftId. split.
    + rewrite lookup_delete_ne; [reflexivity|].
      apply plain_key_not_draftKey. exact Hplain.
    + rewrite lookup_delete_ne; [reflexivity|].
      apply plain_key_not_listKey. exact Hplain.
Qed.

Lemma clearFormState_clears_one_form_witness :
  loadFormState (clearFormState freshWorld "form1") "form2"
  = loadFormState freshWorld "form2"
  /\ getDraftsList (clearFormState freshWorld "form1") "form1"
     = getDraftsList freshWorld "form1".
Proof.
  split.
  - refine (proj1 (proj2 (clearFormState_clears_one_form freshWorld "form1"))
              "form2" _). discriminate.
  - refine (proj2 (proj2 (proj2 (clearFormState_clears_one_form freshWorld
                                   "form1")) _ "form1" "")). reflexivity.
Defined.

(** X17. Whether the write is accepted or refused, [saveFormState] leaves
    the state of every other form as it was, and, for a form id that does
    not start with "draft", every draft and every drafts index as well. *)
Theorem saveFormState_touches_one_form (w : World) (formId : string)
    (values : FormValues) (draftId : option string) :
  let w' := fst (saveFormState w formId values draftId) in
  (forall other, other <> formId ->
     loadFormState w' other = loadFormState w other) /\
  (plain_id formId = true ->
     forall other id,
       loadDraft w' other id = loadDraft w other id /\
       getDraftsList w' other = getDraftsList w other).
Proof.
  cbv zeta. unfold loadFormState, loadDraft, getDraftsList, getItem. split.
  - intros other Hne. rewrite saveFormState_other_keys; [reflexivity|].
    intros H. apply getStorageKey_inj in H. congruence.
  - intros Hplain other id. split.
    + rewrite saveFormState_other_keys; [reflexivity|].
      intros H. symmetry in H. revert H.
      apply plain_key_not_draftKey. exact Hplain.
    + rewrite saveFormState_other_keys; [reflexivity|].
      intros H. symmetry in H. revert H.
      apply plain_key_not_listKey. exact Hplain.
Qed.

Lemma saveFormState_touches_one_form_witness :
  loadFormState (fst (saveFormState freshWorld "form2" ∅ None)) "form1"
  = loadFormState freshWorld "form1"
  /\ getDraftsList (fst (saveFormState freshWorld "form2" ∅ None)) "form1"
     = getDraftsList freshWorld "form1".
Proof.
  split.
  - refine (proj1 (saveFormState_touches_one_form freshWorld "form2" ∅ None)
              "form1" _). discriminate.
  - refine (proj2 (proj2 (saveFormState_touches_one_form freshWorld "form2"
                            ∅ None) _ "form1" "")). reflexivity.
Defined.

Lemma listKey_is_state_key (formId : string) :
  getDraftsListKey formId = getStorageKey ("drafts:" ++ formId).
Proof. reflexivity. Qed.

Lemma stringify_state (state : PersistedFormState) :
  exists fields, stringify (state_value state) = Json (VObj fields).
Proof. unfold stringify, state_value. cbn [json_of]. eauto. Qed.

(** [saveDraft] up to its first write. *)
Lemma saveDraft_first_write (w : World) (formId draftName : string)
    (values : FormValues) (draftId : option string) :
  refuses w (writes w) = false ->
  exists stamp1 stamp2,
    items (fst (saveDraft w formId draftName values draftId))
    !! draftKey formId (draft_id_for w draftId)
    = Some (stringify (state_value
              {| st_formId := formId; st_values := values;
                 st_autoSave :=
                   {| as_lastSavedAt := stamp1; as_isDraft := true;
                      as_draftId := draft_id_for w draftId |};
                 st_timestamp := stamp2 |})).
Proof.
  intros Hok. unfold saveDraft, draft_id_for.
  destruct (opt_str_truthy draftId);
    unfold now, setItem; world_step; rewrite Hok; world_step;
    rewrite getDraftsList_items; world_step;
    (rewrite lookup_insert_ne by apply draftKey_not_listKey);
    do 2 eexists;
    (destruct (parse_or (VArr []) (items w !! getDraftsListKey formId));
     world_step;
     try (destruct (refuses w (S (writes w))); world_step);
     try (rewrite lookup_insert_ne
            by (intros Heq; symmetry in Heq; revert Heq;
                apply draftKey_not_listKey));
     apply lookup_insert_eq).
Qed.

(** X18. The key of the state of a form named "drafts:" + f is the key of
    the drafts index of f.  After a successful [saveFormState] for such a
    form, [getDraftsList(f)] returns that state object instead of an array,
    and [saveDraft] for f throws "Failed to save draft" although the browser
    accepts its write. *)
Theorem state_of_form_named_drafts_replaces_index (w : World)
    (formId draftName : string) (values draftValues : FormValues)
    (draftId newDraft : option string) :
  refuses w (writes w) = false ->
  refuses w (S (writes w)) = false ->
  let w' := fst (saveFormState w ("drafts:" ++ formId) values draftId) in
  getDraftsList w' formId = loadFormState w' ("drafts:" ++ formId) /\
  index_length (getDraftsList w' formId) = None /\
  snd (saveDraft w' formId draftName draftValues newDraft)
  = Throw "Failed to save draft".
Proof.
  intros Hfirst Hsecond. cbv zeta.
  destruct (saveFormState_accepted w ("drafts:" ++ formId) values draftId
              Hfirst) as [_ Hitems].
  destruct (stringify_state
              (built_state w ("drafts:" ++ formId) values draftId))
    as [fields Hjson].
  assert (Hlist : getDraftsList
                    (fst (saveFormState w ("drafts:" ++ formId) values
                            draftId)) formId = VObj fields).
  { rewrite getDraftsList_items, Hitems, listKey_is_state_key,
      lookup_insert_eq, Hjson. reflexivity. }
  split; [|split].
  - rewrite Hlist. unfold loadFormState, getItem.
    rewrite Hitems, lookup_insert_eq, Hjson. reflexivity.
  - rewrite Hlist. reflexivity.
  - rewrite getDraftsList_items in Hlist.
    set (w' := fst (saveFormState w ("drafts:" ++ formId) values draftId))
      in *.
    assert (Hw : refuses w' (writes w') = false).
    { subst w'. unfold saveFormState, now, setItem. world_step.
      rewrite Hfirst. world_step. exact Hsecond. }
    unfold saveDraft.
    destruct (opt_str_truthy newDraft);
      unfold now, setItem; world_step; rewrite Hw; world_step;
      rewrite getDraftsList_items; world_step;
      (rewrite lookup_insert_ne by apply draftKey_not_listKey);
      rewrite Hlist; reflexivity.
Qed.

Lemma state_of_form_named_drafts_replaces_index_witness :
  let w' := fst (saveFormState freshWorld ("drafts:" ++ "form1") ∅ None) in
  getDraftsList w' "form1" = loadFormState w' ("drafts:" ++ "form1") /\
  index_length (getDraftsList w' "form1") = None /\
  snd (saveDraft w' "form1" "Draft 1" ∅ None) = Throw "Failed to save draft".
Proof.
  exact (state_of_form_named_drafts_replaces_index freshWorld "form1"
           "Draft 1" ∅ ∅ None None eq_refl eq_refl).
Defined.

(** X19. Once its first write is accepted, [saveDraft] has stored the
    draft under the given id, or under "draft-" followed by the clock's
    milliseconds when none is given: [loadDraft] for that id then returns a
    state whose values are the ones saved (for JSON-representable answers)
    and which is marked as a draft with that id.  This holds also when
    [saveDraft] goes on to throw because the index cannot be updated. *)
Theorem saveDraft_then_loadDraft (w : World) (formId draftName : string)
    (values : FormValues) (draftId : option string) :
  refuses w (writes w) = false ->
  map_Forall (fun _ v => json_clean v = true) values ->
  let w' := fst (saveDraft w formId draftName values draftId) in
  let loaded := loadDraft w' formId (draft_id_for w draftId) in
  values_of loaded = Some values /\
  exists autoSave,
    prop loaded "autoSave" = Normal (VObj autoSave) /\
    obj_get autoSave "isDraft" = VBool true /\
    obj_get autoSave "draftId" = VStr (draft_id_for w draftId).
Proof.
  intros Hok Hclean. cbv zeta.
  destruct (saveDraft_first_write w formId draftName values draftId Hok)
    as (stamp1 & stamp2 & Hitem).
  unfold loadDraft, getItem. rewrite Hitem.
  unfold stringify, state_value, autoSave_value.
  cbn [json_of keep_fields st_formId st_values st_autoSave st_timestamp
       as_lastSavedAt as_isDraft as_draftId].
  rewrite (map_to_list_clean _ Hclean).
  cbn [parse_or text_truthy parse]. split.
  - unfold values_of. cbn [obj_get String.eqb Ascii.eqb Bool.eqb].
    rewrite list_to_map_to_list. reflexivity.
  - eexists. cbn [prop obj_get String.eqb Ascii.eqb Bool.eqb].
    split; [reflexivity|]. split; reflexivity.
Qed.

Lemma saveDraft_then_loadDraft_witness :
  let w' := fst (saveDraft freshWorld "form1" "Draft 1" testValues None) in
  let loaded := loadDraft w' "form1" (draft_id_for freshWorld None) in
  values_of loaded = Some testValues /\
  exists autoSave,
    prop loaded "autoSave" = Normal (VObj autoSave) /\
    obj_get autoSave "isDraft" = VBool true /\
    obj_get autoSave "draftId" = VStr (draft_id_for freshWorld None).
Proof.
  refine (saveDraft_then_loadDraft freshWorld "form1" "Draft 1" testValues
            None eq_refl _).
  apply (bool_decide_unpack _). vm_compute. exact I.
Defined.

(** X20. When the first write of [saveDraft] is accepted and the second
    one refused, [saveDraft] throws "Failed to save draft" and the index is
    as before, but the draft is stored all the same. *)
Theorem saveDraft_index_failure_keeps_draft (w : World)
    (formId draftName : string) (values : FormValues)
    (draftId : option string) (entries : list Value) :
  refuses w (writes w) = false ->
  refuses w (S (writes w)) = true ->
  getDraftsList w formId = VArr entries ->
  let result := saveDraft w formId draftName values draftId in
  snd result = Throw "Failed to save draft" /\
  getDraftsList (fst result) formId = VArr entries /\
  loadDraft (fst result) formId (draft_id_for w draftId) <> VNull.
Proof.
  intros Hfirst Hsecond Hindex. cbv zeta.
  assert (Hdraft : loadDraft (fst (saveDraft w formId draftName values
                                     draftId)) formId
                     (draft_id_for w draftId) <> VNull).
  { destruct (saveDraft_first_write w formId draftName values draftId Hfirst)
      as (stamp1 & stamp2 & Hitem).
    unfold loadDraft, getItem. rewrite Hitem.
    destruct (stringify_state
                {| st_formId := formId; st_values := values;
                   st_autoSave :=
                     {| as_lastSavedAt := stamp1; as_isDraft := true;
                        as_draftId := draft_id_for w draftId |};
                   st_timestamp := stamp2 |}) as [fields ->].
    discriminate. }
  assert (Hrun : snd (saveDraft w formId draftName values draftId)
                 = Throw "Failed to save draft" /\
                 items (fst (saveDraft w formId draftName values draftId))
                 !! getDraftsListKey formId
                 = items w !! getDraftsListKey formId).
  { rewrite getDraftsList_items in Hindex. unfold saveDraft.
    destruct (opt_str_truthy draftId);
      unfold now, setItem; world_step; rewrite Hfirst; world_step;
      rewrite getDraftsList_items; world_step;
      (rewrite lookup_insert_ne by apply draftKey_not_listKey);
      rewrite Hindex; world_step; rewrite Hsecond; world_step;
      (split; [reflexivity|]);
      apply lookup_insert_ne, draftKey_not_listKey. }
  destruct Hrun as [Hthrow Hlist].
  split; [exact Hthrow|]. split; [|exact Hdraft].
  rewrite getDraftsList_items, Hlist. exact Hindex.
Qed.

Lemma saveDraft_index_failure_keeps_draft_witness :
  let result := saveDraft nearlyFullWorld "form1" "Draft 1" ∅ (Some "d1") in
  snd result = Throw "Failed to save draft" /\
  getDraftsList (fst result) "form1" = VArr [] /\
  loadDraft (fst result) "form1" (draft_id_for nearlyFullWorld (Some "d1"))
  <> VNull.
Proof.
  exact (saveDraft_index_failure_keeps_draft nearlyFullWorld "form1"
           "Draft 1" ∅ (Some "d1") [] eq_refl eq_refl eq_refl).
Defined.

Lemma same_draft_object (draftId : string) (fields : list (string * Value)) :
  same_draft draftId (VObj fields)
  = Normal (has_id draftId (VObj fields)).
Proof. reflexivity. Qed.

Lemma find_c_none (draftId : string) (entries : list Value) :
  forallb is_object entries = true ->
  forallb (fun d => negb (has_id draftId d)) entries = true ->
  find_c (same_draft draftId) entries = Normal None.
Proof.
  induction entries as [|d rest IH]; [reflexivity|].
  cbn [forallb]. intros Hobj Hid.
  apply andb_prop in Hobj as [Hd Hobj]. apply andb_prop in Hid as [Hn Hid].
  destruct d; try discriminate. cbn [find_c].
  rewrite same_draft_object. cbn [bind].
  apply negb_true_iff in Hn. rewrite Hn, (IH Hobj Hid). reflexivity.
Qed.

Lemma find_c_found (draftId : string) (before after : list Value)
    (fields : list (string * Value)) :
  forallb is_object before = true ->
  forallb (fun d => negb (has_id draftId d)) before = true ->
  has_id draftId (VObj fields) = true ->
  find_c (same_draft draftId) (before ++ VObj fields :: after)%list
  = Normal (Some (length before)).
Proof.
  intros Hobj Hid Hhit. induction before as [|d rest IH].
  - cbn [app find_c]. rewrite same_draft_object, Hhit. reflexivity.
  - cbn [forallb] in Hobj, Hid.
    apply andb_prop in Hobj as [Hd Hobj]. apply andb_prop in Hid as [Hn Hid].
    destruct d; try discriminate. cbn [app find_c].
    rewrite same_draft_object. cbn [bind].
    apply negb_true_iff in Hn. rewrite Hn, (IH Hobj Hid). reflexivity.
Qed.

(** X21. [renameDraft] changes, in an index of entry objects, the first
    entry with the given id and nothing else: that entry gets the new name
    and the current time as [updatedAt], the entries before and after it
    stay in place, and no draft data is touched.  When no entry has the id,
    nothing at all changes: no write, no reading of the clock. *)
Theorem renameDraft_renames_first_match (w : World)
    (formId draftId newName : string) (before after : list Value)
    (fields : list (string * Value)) :
  forallb is_object before = true ->
  forallb (fun d => negb (has_id draftId d)) before = true ->
  (has_id draftId (VObj fields) = true ->
   refuses w (writes w) = false ->
   getDraftsList w formId = VArr (before ++ VObj fields :: after)%list ->
   getDraftsList (renameDraft w formId draftId newName) formId
   = VArr (reparsed
             (before
              ++ VObj (renamed_fields fields newName
                         (iso (clock w (reads w)))) :: after)%list)
   /\ forall id, loadDraft (renameDraft w formId draftId newName) formId id
                 = loadDraft w formId id) /\
  (getDraftsList w formId = VArr before ->
   renameDraft w formId draftId newName = w).
Proof.
  intros Hobj Hid. split.
  - intros Hhit Hok Hindex. unfold renameDraft. rewrite Hindex.
    rewrite (find_c_found _ _ _ _ Hobj Hid Hhit).
    rewrite list_lookup_middle by reflexivity.
    unfold now, setItem. world_step. rewrite Hok. world_step.
    rewrite insert_app_r_alt by lia. rewrite Nat.sub_diag.
    cbn [insert list_insert]. split.
    + rewrite getDraftsList_items. world_step.
      rewrite lookup_insert_eq. reflexivity.
    + intros id. unfold loadDraft, getItem. world_step.
      apply f_equal. apply lookup_insert_ne.
      intros Heq. symmetry in Heq. revert Heq. apply draftKey_not_listKey.
  - intros Hindex. unfold renameDraft.
    rewrite Hindex, (find_c_none _ _ Hobj Hid). reflexivity.
Qed.

Lemma renameDraft_renames_first_match_witness :
  (getDraftsList (renameDraft indexedWorld "form1" "b" "Final") "form1"
   = VArr (reparsed
             ([entryA]
              ++ VObj (renamed_fields
                         [ ("id", VStr "b"); ("name", VStr "Draft B");
                           ("createdAt", VStr "t1");
                           ("updatedAt", VStr "t1") ]
                         "Final" (iso (clock indexedWorld
                                         (reads indexedWorld)))) :: [])%list)
   /\ forall id, loadDraft (renameDraft indexedWorld "form1" "b" "Final")
                   "form1" id
                 = loadDraft indexedWorld "form1" id)
  /\ renameDraft freshWorld "form1" "b" "Final" = freshWorld.
Proof.
  split.
  - exact (proj1 (renameDraft_renames_first_match indexedWorld "form1" "b"
                    "Final" [entryA] []
                    [ ("id", VStr "b"); ("name", VStr "Draft B");
                      ("createdAt", VStr "t1"); ("updatedAt", VStr "t1") ]
                    eq_refl eq_refl) eq_refl eq_refl eq_refl).
  - exact (proj2 (renameDraft_renames_first_match freshWorld "form1" "b"
                    "Final" [] [] [] eq_refl eq_refl) eq_refl).
Defined.

Lemma filter_has_id (draftId : string) (entries : list Value) :
  List.filter
    (fun d => match d with
              | VObj fields =>
                  negb (strict_eq (obj_get fields "id") (VStr draftId))
              | _ => true
              end) entries
  = List.filter (fun d => negb (has_id draftId d)) entries.
Proof.
  apply List.filter_ext. intros d. destruct d; reflexivity.
Qed.

(** X22. On an index of entry objects, [deleteDraft] removes the data of
    the draft and, when the browser accepts the write, every index entry
    with that id, the other entries staying in order.  When the write is
    refused the error is swallowed: the data is gone but the index still
    lists the draft. *)
Theorem deleteDraft_removes_matching_entries (w : World)
    (formId draftId : string) (entries : list Value) :
  forallb is_object entries = true ->
  getDraftsList w formId = VArr entries ->
  loadDraft (deleteDraft w formId draftId) formId draftId = VNull /\
  getDraftsList (deleteDraft w formId draftId) formId
  = if refuses w (writes w) then VArr entries
    else VArr (reparsed
                 (List.filter (fun d => negb (has_id draftId d)) entries)).
Proof.
  intros Hobj Hindex.
  assert (Hfilter : filter_c (other_draft draftId) entries
                    = Normal (List.filter
                                (fun d => negb (has_id draftId d)) entries)).
  { rewrite filter_c_entries, filter_has_id; [reflexivity|].
    apply Forall_forall. intros d Hd. apply list_elem_of_In in Hd.
    rewrite forallb_forall in Hobj. specialize (Hobj d Hd).
    destruct d; try discriminate. eauto. }
  destruct (refuses w (writes w)) eqn:Hw.
  - assert (Hinner : getDraftsList (removeItem w (draftKey formId draftId))
                       formId = VArr entries).
    { rewrite getDraftsList_items in *. unfold removeItem. world_step.
      rewrite lookup_delete_ne by apply draftKey_not_listKey. exact Hindex. }
    unfold deleteDraft. rewrite Hinner, Hfilter.
    unfold setItem, removeItem. world_step. rewrite Hw. world_step. split.
    + unfold loadDraft, getItem. world_step.
      rewrite lookup_delete_eq. reflexivity.
    + rewrite getDraftsList_items in *. world_step.
      rewrite lookup_delete_ne by apply draftKey_not_listKey. exact Hindex.
  - destruct (deleteDraft_filters w formId draftId entries _ Hw Hindex
                Hfilter) as [Hlist Hdraft].
    split; assumption.
Qed.

Lemma deleteDraft_removes_matching_entries_witness :
  loadDraft (deleteDraft indexedWorld "form1" "a") "form1" "a" = VNull /\
  getDraftsList (deleteDraft indexedWorld "form1" "a") "form1"
  = if refuses indexedWorld (writes indexedWorld)
    then VArr [entryA; entryB]
    else VArr (reparsed
                 (List.filter (fun d => negb (has_id "a" d))
                    [entryA; entryB])).
Proof.
  exact (deleteDraft_removes_matching_entries indexedWorld "form1" "a"
           [entryA; entryB] eq_refl eq_refl).
Defined.

Lemma json_of_state_clean (state : PersistedFormState) :
  map_Forall (fun _ v => json_clean v = true) (st_values state) ->
  json_of (state_value state) = Some (state_value state).
Proof.
  intros Hclean. unfold state_value, autoSave_value.
  cbn [json_of keep_fields]. rewrite (map_to_list_clean _ Hclean).
  reflexivity.
Qed.

Lemma loadFormState_after_save (w : World) (formId : string)
    (values : FormValues) (draftId : option string) :
  refuses w (writes w) = false ->
  map_Forall (fun _ v => json_clean v = true) values ->
  loadFormState (fst (saveFormState w formId values draftId)) formId
  = state_value (built_state w formId values draftId).
Proof.
  intros Hok Hclean.
  destruct (saveFormState_accepted w formId values draftId Hok) as [_ Hitems].
  unfold loadFormState, getItem. rewrite Hitems, lookup_insert_eq.
  unfold stringify. rewrite json_of_state_clean by exact Hclean.
  reflexivity.
Qed.

Lemma exportFormState_after_save (w : World) (formId : string)
    (values : FormValues) (draftId : option string) :
  refuses w (writes w) = false ->
  map_Forall (fun _ v => json_clean v = true) values ->
  exportFormState (fst (saveFormState w formId values draftId)) formId
  = Normal (Json (state_value (built_state w formId values draftId))).
Proof.
  intros Hok Hclean. unfold exportFormState.
  rewrite (loadFormState_after_save _ _ _ _ Hok Hclean).
  cbn [truthy negb state_value]. unfold stringify.
  fold (state_value (built_state w formId values draftId)).
  rewrite json_of_state_clean by exact Hclean. reflexivity.
Qed.

Lemma string_eqb_refl' (s : string) : String.eqb s s = true.
Proof. apply String.eqb_refl. Qed.

(** X23. Export and import round-trip: the text that [exportFormState]
    gives for a state saved with JSON-representable answers is accepted by
    [importFormState] for the same form id, in any browser that accepts the
    write, and the state loaded afterwards has the same values and the same
    draft marking (isDraft and draftId). *)
Theorem export_then_import (w w2 : World) (formId : string)
    (values : FormValues) (draftId : option string) :
  refuses w (writes w) = false ->
  refuses w2 (writes w2) = false ->
  map_Forall (fun _ v => json_clean v = true) values ->
  exists text state autoSave,
    exportFormState (fst (saveFormState w formId values draftId)) formId
    = Normal text /\
    snd (importFormState w2 formId text) = Normal state /\
    loadFormState (fst (importFormState w2 formId text)) formId = state /\
    values_of state = Some values /\
    prop state "autoSave" = Normal (VObj autoSave) /\
    obj_get autoSave "isDraft" = VBool (opt_str_truthy draftId) /\
    obj_get autoSave "draftId"
    = VStr (as_draftId (st_autoSave (built_state w formId values draftId))).
Proof.
  intros Hok Hok2 Hclean.
  eexists. eexists. eexists.
  split; [apply exportFormState_after_save; assumption|].
  unfold importFormState, import_arguments, state_value, autoSave_value,
    built_state.
  cbn [parse bind prop obj_get String.eqb Ascii.eqb Bool.eqb st_formId
       st_values st_autoSave st_timestamp as_lastSavedAt as_isDraft
       as_draftId strict_eq].
  rewrite string_eqb_refl'. cbn [negb].
  unfold saveFormState_dyn, now, setItem. world_step.
  rewrite Hok2. world_step.
  unfold loadFormState, getItem. world_step. rewrite lookup_insert_eq.
  unfold stringify. cbn [json_of keep_fields].
  rewrite (map_to_list_clean _ Hclean).
  assert (Hid : truthy (VStr (if opt_str_truthy draftId
                              then default "" draftId else ""))
                = opt_str_truthy draftId).
  { destruct draftId as [d|]; [|reflexivity].
    cbn [opt_str_truthy default from_option id]. unfold str_truthy.
    destruct (String.eqb d "") eqn:E; cbn [truthy negb]; [reflexivity|].
    rewrite E. reflexivity. }
  rewrite Hid.
  assert (Hkeep : json_of (if opt_str_truthy draftId
                           then VStr (if opt_str_truthy draftId
                                      then default "" draftId else "")
                           else VStr "")
                  = Some (VStr (if opt_str_truthy draftId
                                then default "" draftId else "")))
    by (destruct (opt_str_truthy draftId); reflexivity).
  rewrite Hkeep. cbn [parse_or text_truthy parse].
  split; [reflexivity|]. split.
  { destruct (opt_str_truthy draftId); reflexivity. }
  split.
  { unfold values_of. cbn [obj_get String.eqb Ascii.eqb Bool.eqb].
    rewrite list_to_map_to_list. reflexivity. }
  split; [reflexivity|]. split; [reflexivity|].
  cbn [obj_get String.eqb Ascii.eqb Bool.eqb].
  destruct (opt_str_truthy draftId); reflexivity.
Qed.

Lemma export_then_import_witness :
  exists text state autoSave,
    exportFormState
      (fst (saveFormState freshWorld "form1" testValues (Some "d1"))) "form1"
    = Normal text /\
    snd (importFormState freshWorld "form1" text) = Normal state /\
    loadFormState (fst (importFormState freshWorld "form1" text)) "form1"
    = state /\
    values_of state = Some testValues /\
    prop state "autoSave" = Normal (VObj autoSave) /\
    obj_get autoSave "isDraft" = VBool (opt_str_truthy (Some "d1")) /\
    obj_get autoSave "draftId"
    = VStr (as_draftId
              (st_autoSave
                 (built_state freshWorld "form1" testValues (Some "d1")))).
Proof.
  refine (export_then_import freshWorld freshWorld "form1" testValues
            (Some "d1") eq_refl eq_refl _).
  apply (bool_decide_unpack _). vm_compute. exact I.
Defined.

(** X24. [importFormState] rejects with "Invalid form data", and leaves the
    browser's storage and clock untouched, a text that is not JSON, a
    document that is null, and a document whose [formId] is not the target
    one: the "Form ID mismatch" error raised inside is replaced by
    "Invalid form data".  In particular the export of one form cannot be
    imported into a form with another id. *)
Theorem importFormState_rejects (w w2 : World) (formId other raw : string)
    (values : FormValues) (draftId : option string) (doc : Value)
    (stateId : Value) :
  importFormState w2 formId (Malformed raw) = (w2, Throw "Invalid form data")
  /\ importFormState w2 formId (Json VNull) = (w2, Throw "Invalid form data")
  /\ (prop doc "formId" = Normal stateId ->
      strict_eq stateId (VStr formId) = false ->
      importFormState w2 formId (Json doc) = (w2, Throw "Invalid form data"))
  /\ (other <> formId ->
      refuses w (writes w) = false ->
      map_Forall (fun _ v => json_clean v = true) values ->
      exists text,
        exportFormState (fst (saveFormState w other values draftId)) other
        = Normal text /\
        importFormState w2 formId text = (w2, Throw "Invalid form data")).
Proof.
  split; [reflexivity|]. split; [reflexivity|]. split.
  - intros Hprop Hne. unfold importFormState, import_arguments.
    cbn [parse bind]. rewrite Hprop. cbn [bind]. rewrite Hne. reflexivity.
  - intros Hother Hok Hclean. eexists.
    split; [apply exportFormState_after_save; assumption|].
    unfold importFormState, import_arguments, state_value, built_state.
    cbn [parse bind prop obj_get String.eqb Ascii.eqb Bool.eqb st_formId
         strict_eq].
    apply String.eqb_neq in Hother. rewrite Hother. reflexivity.
Qed.

Lemma importFormState_rejects_witness :
  importFormState freshWorld "form2" (Json (VObj [("formId", VStr "form1")]))
  = (freshWorld, Throw "Invalid form data")
  /\ exists text,
       exportFormState (fst (saveFormState freshWorld "form1" testValues None))
         "form1" = Normal text /\
       importFormState freshWorld "form2" text
       = (freshWorld, Throw "Invalid form data").
Proof.
  split.
  - refine (proj1 (proj2 (proj2 (importFormState_rejects freshWorld
              freshWorld "form2" "form1" "" testValues None
              (VObj [("formId", VStr "form1")]) (VStr "form1"))))
              eq_refl eq_refl).
  - refine (proj2 (proj2 (proj2 (importFormState_rejects freshWorld
              freshWorld "form2" "form1" "" testValues None VNull VNull)))
              _ eq_refl _).
    + discriminate.
    + apply (bool_decide_unpack _). vm_compute. exact I.
Defined.

Lemma removeItem_fold_lookup (keys : list string) (w : World)
    (key : string) :
  items (fold_left removeItem keys w) !! key
  = if bool_decide (key ∈ keys) then None else items w !! key.
Proof.
  revert w. induction keys as [|k rest IH]; intros w; [reflexivity|].
  cbn [fold_left]. rewrite IH. unfold removeItem. world_step.
  destruct (decide (key = k)) as [->|Hne].
  - rewrite lookup_delete_eq.
    rewrite (bool_decide_eq_true_2 (k ∈ k :: rest)) by (left).
    destruct (bool_decide (k ∈ rest)); reflexivity.
  - rewrite lookup_delete_ne by congruence.
    destruct (bool_decide (key ∈ rest)) eqn:Hin.
    + apply bool_decide_eq_true_1 in Hin.
      rewrite bool_decide_eq_true_2 by (right; exact Hin). reflexivity.
    + apply bool_decide_eq_false_1 in Hin.
      rewrite bool_decide_eq_false_2; [reflexivity|].
      intros Hc. apply elem_of_cons in Hc as [Hc|Hc]; contradiction.
Qed.

Lemma clearAllStorage_lookup (w : World) (key : string) :
  items (clearAllStorage w) !! key
  = if String.prefix STORAGE_PREFIX key then None else items w !! key.
Proof.
  unfold clearAllStorage. rewrite removeItem_fold_lookup.
  unfold namespaced_keys.
  destruct (String.prefix STORAGE_PREFIX key) eqn:Hp.
  - destruct (items w !! key) as [text|] eqn:Hk.
    + rewrite bool_decide_eq_true_2; [reflexivity|].
      apply list_elem_of_In, filter_In. split; [|exact Hp].
      apply in_map_iff. exists (key, text). split; [reflexivity|].
      apply list_elem_of_In, elem_of_map_to_list. exact Hk.
    + destruct (bool_decide _); reflexivity.
  - rewrite bool_decide_eq_false_2; [reflexivity|].
    intros Hin. apply list_elem_of_In, filter_In in Hin as [_ Hc].
    congruence.
Qed.

Lemma prefix_append (p s : string) : String.prefix p (p ++ s) = true.
Proof.
  induction p as [|c p IH]; [destruct s; reflexivity|].
  change (String.prefix (String c p) (String c (p ++ s)) = true).
  cbn [String.prefix].
  destruct (ascii_dec c c); [exact IH|contradiction].
Qed.

(** X25. After [clearAllStorage] no form has a state, a draft or a drafts
    index left: the three loaders return null, null and the empty list for
    every form and draft id.  The entries of [localStorage] whose key does
    not start with "risk-form:" are as before. *)
Theorem clearAllStorage_purges_the_namespace (w : World)
    (formId draftId key : string) :
  loadFormState (clearAllStorage w) formId = VNull /\
  loadDraft (clearAllStorage w) formId draftId = VNull /\
  getDraftsList (clearAllStorage w) formId = VArr [] /\
  (String.prefix "risk-form:" key = false ->
   getItem (clearAllStorage w) key = getItem w key).
Proof.
  unfold loadFormState, loadDraft, getDraftsList, getItem.
  rewrite !clearAllStorage_lookup.
  unfold getStorageKey, draftKey, getDraftsListKey.
  rewrite !prefix_append. repeat split.
  intros Hkey. unfold STORAGE_PREFIX. rewrite Hkey. reflexivity.
Qed.

Lemma clearAllStorage_purges_the_namespace_witness :
  getItem (clearAllStorage
             {| items := {[ "theme" := Malformed "dark";
                            "risk-form:form1" := Json VNull ]};
                clock := clock freshWorld; reads := 0;
                refuses := fun _ => false; writes := 0 |}) "theme"
  = getItem {| items := {[ "theme" := Malformed "dark";
                           "risk-form:form1" := Json VNull ]};
               clock := clock freshWorld; reads := 0;
               refuses := fun _ => false; writes := 0 |} "theme".
Proof.
  refine (proj2 (proj2 (proj2 (clearAllStorage_purges_the_namespace
            {| items := {[ "theme" := Malformed "dark";
                           "risk-form:form1" := Json VNull ]};
               clock := clock freshWorld; reads := 0;
               refuses := fun _ => false; writes := 0 |} "" "" "theme")))
            eq_refl).
Defined.

(** X26. The checkbox group keeps the answer a list of the checked values:
    unchecking a box removes every occurrence of its value and leaves the
    other values in order, and checking a box that was not checked and then
    unchecking it gives back the former answer. *)
Theorem checkbox_change_toggles (target : string) (current : list string) :
  ~ In target (checkbox_change false target (Some current)) /\
  (forall v, v <> target ->
     (In v (checkbox_change false target (Some current)) <-> In v current)) /\
  (~ In target current ->
   checkbox_change false target
     (Some (checkbox_change true target (Some current))) = current).
Proof.
  unfold checkbox_change. cbn [default from_option id]. split; [|split].
  - rewrite filter_In. intros [_ H].
    rewrite String.eqb_refl in H. discriminate.
  - intros v Hne. rewrite filter_In. apply String.eqb_neq in Hne.
    rewrite Hne. cbn. tauto.
  - intros Hnot. rewrite List.filter_app. cbn [List.filter].
    rewrite String.eqb_refl. cbn [negb]. rewrite app_nil_r.
    induction current as [|v rest IH]; [reflexivity|].
    cbn [List.filter].
    destruct (String.eqb_spec v target) as [->|Hne].
    + exfalso. apply Hnot. left. reflexivity.
    + cbn [negb]. rewrite IH; [reflexivity|].
      intros Hin. apply Hnot. right. exact Hin.
Qed.

Lemma checkbox_change_toggles_witness :
  (In "a" (checkbox_change false "c" (Some ["a"; "c"; "b"]))
   <-> In "a" ["a"; "c"; "b"]) /\
  checkbox_change false "c"
    (Some (checkbox_change true "c" (Some ["a"; "b"]))) = ["a"; "b"].
Proof.
  split.
  - refine (proj1 (proj2 (checkbox_change_toggles "c" ["a"; "c"; "b"]))
              "a" _). discriminate.
  - refine (proj2 (proj2 (checkbox_change_toggles "c" ["a"; "b"])) _).
    intros [H | [H | []]]; discriminate.
Defined.

Lemma sums_monotone (A : Type) (low high : A -> Q) (l : list A) :
  (forall x, In x l -> (low x <= high x)%Q) ->
  (sum_reduce (map low l) <= sum_reduce (map high l))%Q.
Proof.
  intros Hall. rewrite !sum_reduce_fold_right.
  induction l as [|x rest IH]; [cbn; lra|].
  cbn [map fold_right].
  pose proof (Hall x (or_introl eq_refl)) as Hx.
  assert (Hrest : (fold_right Qplus 0 (map low rest)
                   <= fold_right Qplus 0 (map high rest))%Q)
    by (apply IH; intros y Hy; apply Hall; right; exact Hy).
  lra.
Qed.

Lemma percent_of_monotone (low high max : Q) :
  (low <= high)%Q -> (percent_of low max <= percent_of high max)%Q.
Proof.
  intros H. unfold percent_of.
  destruct (Qle_bool max 0) eqn:Hmax; cbn [negb]; [lra|].
  assert (Hpos : (0 < max)%Q).
  { apply Qnot_le_lt. intros Hc. apply Qle_bool_iff in Hc. congruence. }
  apply Qmult_le_compat_r; [|lra].
  unfold Qdiv. apply Qmult_le_compat_r; [exact H|].
  apply Qlt_le_weak, Qinv_lt_0_compat. exact Hpos.
Qed.

(** X27. Monotonicity: if, from one set of answers to another, no question
    contributes a lower score, then the reported percentage does not
    decrease, and neither does the reported totalScore as long as the
    maxRiskScore of the config is not negative. *)
Theorem higher_answers_never_lower_the_score (config : FormConfig)
    (low high : FormValues) :
  (forall question, In question (questions_of config) ->
     (question_score low question <= question_score high question)%Q) ->
  (percentage (calculateRiskScore config low)
   <= percentage (calculateRiskScore config high))%Q /\
  ((0 <= maxScore (calculateRiskScore config low))%Q ->
   (totalScore (calculateRiskScore config low)
    <= totalScore (calculateRiskScore config high))%Q).
Proof.
  intros Hall. unfold calculateRiskScore. cbv zeta.
  cbn [percentage maxScore totalScore].
  destruct (section_fold_sums low (cfg_sections config)
              {| tot_breakdown := ∅; tot_score := 0; tot_max := 0 |})
    as [-> ->].
  destruct (section_fold_sums high (cfg_sections config)
              {| tot_breakdown := ∅; tot_score := 0; tot_max := 0 |})
    as [-> ->].
  cbn [tot_score tot_max]. fold (questions_of config).
  fold (sum_reduce (map (question_score low) (questions_of config))).
  fold (sum_reduce (map (question_score high) (questions_of config))).
  fold (sum_reduce (map question_weight (questions_of config))).
  pose proof (percent_of_monotone _ _
                (sum_reduce (map question_weight (questions_of config)))
                (sums_monotone _ _ _ _ Hall)) as Hp.
  split; [apply Math_round_le; exact Hp|].
  intros Hm. apply Math_round_le.
  apply Qmult_le_compat_r; [|exact Hm].
  unfold Qdiv. apply Qmult_le_compat_r; [exact Hp|].
  apply Qlt_le_weak, Qinv_lt_0_compat. reflexivity.
Qed.

Lemma higher_answers_never_lower_the_score_witness :
  (percentage (calculateRiskScore mockConfig ∅)
   <= percentage (calculateRiskScore mockConfig {[ "q2" := num 3 ]}))%Q /\
  ((0 <= maxScore (calculateRiskScore mockConfig ∅))%Q ->
   (totalScore (calculateRiskScore mockConfig ∅)
    <= totalScore (calculateRiskScore mockConfig {[ "q2" := num 3 ]}))%Q).
Proof.
  refine (higher_answers_never_lower_the_score mockConfig ∅
            {[ "q2" := num 3 ]} _).
  intros question [<- | [<- | []]]; vm_compute; discriminate.
Defined.

(** X28. A successful [saveDraft] returns the id it stored under (the one
    given, or "draft-" followed by the clock's milliseconds) and pushes one
    entry with that id and the given name at the end of the index, the
    former entries staying in order before it. *)
Theorem saveDraft_appends_entry (w : World) (formId draftName : string)
    (values : FormValues) (draftId : option string) (entries : list Value) :
  refuses w (writes w) = false ->
  refuses w (S (writes w)) = false ->
  getDraftsList w formId = VArr entries ->
  exists created updated,
    snd (saveDraft w formId draftName values draftId)
    = Normal (draft_id_for w draftId) /\
    getDraftsList (fst (saveDraft w formId draftName values draftId)) formId
    = VArr (reparsed entries
            ++ [entry_value (draft_id_for w draftId) draftName
                  created updated])%list.
Proof.
  intros Hfirst Hsecond Hindex. rewrite getDraftsList_items in Hindex.
  unfold saveDraft, draft_id_for.
  destruct (opt_str_truthy draftId);
    unfold now, setItem; world_step;
    rewrite Hfirst; world_step;
    rewrite getDraftsList_items; world_step;
    (rewrite lookup_insert_ne by apply draftKey_not_listKey);
    rewrite Hindex; world_step;
    rewrite Hsecond; world_step;
    do 2 eexists; (split; [reflexivity|]);
    rewrite getDraftsList_items; world_step;
    rewrite lookup_insert_eq; unfold stringify; cbn [json_of];
    cbn [parse_or text_truthy parse]; unfold reparsed;
    rewrite map_app; reflexivity.
Qed.

Lemma saveDraft_appends_entry_witness :
  exists created updated,
    snd (saveDraft indexedWorld "form1" "Draft C" ∅ None)
    = Normal (draft_id_for indexedWorld None) /\
    getDraftsList (fst (saveDraft indexedWorld "form1" "Draft C" ∅ None))
      "form1"
    = VArr (reparsed [entryA; entryB]
            ++ [entry_value (draft_id_for indexedWorld None) "Draft C"
                  created updated])%list.
Proof.
  exact (saveDraft_appends_entry indexedWorld "form1" "Draft C" ∅ None
           [entryA; entryB] eq_refl eq_refl eq_refl).
Defined.

(** X29. On a form without answers, when no conditional names a question
    id that the empty object inherits from [Object.prototype],
    [getVisibleQuestions] returns exactly the questions that have no
    conditional, in order; and whatever the answers and the ids, it never
    drops a question that has no conditional. *)
Theorem getVisibleQuestions_of_fresh_form (host : Host)
    (questions : list Question) (values : FormValues) :
  (Forall (fun question => conditional_own_key question = true) questions ->
   getVisibleQuestions host questions ∅ = List.filter unconditional questions)
  /\ forall question,
       In question questions -> unconditional question = true ->
       In question (getVisibleQuestions host questions values).
Proof.
  split.
  - intros _. unfold getVisibleQuestions. apply List.filter_ext.
    intros question. apply isFieldVisible_empty_values.
  - intros question Hin Hun. unfold getVisibleQuestions.
    apply filter_In. split; [exact Hin|].
    apply isFieldVisible_unconditional.
    unfold unconditional in Hun.
    destruct (q_conditional question); [discriminate|reflexivity].
Qed.

Lemma getVisibleQuestions_of_fresh_form_witness :
  getVisibleQuestions exampleHost [detailsQuestion; nameQuestion] ∅
  = [nameQuestion] /\
  In nameQuestion
    (getVisibleQuestions exampleHost [detailsQuestion; nameQuestion]
       {[ "q1" := VStr "no" ]}).
Proof.
  split.
  - refine (proj1 (getVisibleQuestions_of_fresh_form exampleHost
                     [detailsQuestion; nameQuestion] ∅) _).
    repeat constructor.
  - refine (proj2 (getVisibleQuestions_of_fresh_form exampleHost
                     [detailsQuestion; nameQuestion] {[ "q1" := VStr "no" ]})
              nameQuestion _ eq_refl).
    right. left. reflexivity.
Defined.
